(** * Noah ZK-KYC: the predicate circuit, the credential registry and the
      protocol access control contract

    A shallow embedding of
    - the gnark circuit [ZKKYC] (package [circuit]: [Define],
      [checkSanctions], [checkJurisdiction], [checkAccreditation]),
    - the Solidity contract [CredentialRegistry],
    - the Solidity contract [ProtocolAccessControl],
    followed by the properties established about them. *)

From Stdlib Require Import ZArith List Bool Lia String.
From stdpp Require Import base option gmap.
Import ListNotations.

Local Open Scope Z_scope.

(** ** The predicate circuit *)

Module Circuit.

(** Scalar field of BN254, the curve the circuit is compiled for
    ([ecc.BN254.ScalarField()]). A [frontend.Variable] is an element of this
    field; it is represented by an integer and every gate reads it modulo
    [q]. *)
Definition q : Z :=
  21888242871839275222246405745257275088548364400416034343698204186575808495617.

Definition in_field (x : Z) : Prop := 0 <= x < q.

(** The gates of gnark's [frontend.API] that [Define] uses, with the
    contracts the library documents for them:
    - [Add], [Sub], [Mul]: field arithmetic;
    - [IsZero a]: 1 if [a] is zero, 0 otherwise;
    - [Cmp a b]: 1 if [a > b], 0 if [a = b], -1 if [a < b], the operands
      compared as unsigned integers below [q]; -1 is the field element
      [q - 1]. *)
Module api.

Definition Add (a b : Z) : Z := (a + b) mod q.
Definition Sub (a b : Z) : Z := (a - b) mod q.
Definition Mul (a b : Z) : Z := (a * b) mod q.

Definition IsZero (a : Z) : Z := if a mod q =? 0 then 1 else 0.

Definition Cmp (a b : Z) : Z :=
  match a mod q ?= b mod q with
  | Gt => 1
  | Eq => 0
  | Lt => q - 1
  end.

End api.

(** The circuit structure: private inputs, public inputs and the three
    outputs assigned by [Define]. The two [[10]frontend.Variable] arrays are
    lists read by index. *)
Record ZKKYC : Type := mkZKKYC {
  ActualAge : Z;
  ActualJurisdiction : Z;
  ActualAccredited : Z;
  CredentialHash : Z;
  PassportNumber : Z;
  ExpiryDate : Z;
  MinAge : Z;
  AllowedJurisdictions : list Z;
  RequireAccredited : Z;
  CredentialHashPublic : Z;
  RecipientAddress : Z;
  CurrentDate : Z;
  SanctionedCountries : list Z;
  IsValid : Z;
  Nullifier : Z;
  PackedFlags : Z
}.

(** [matches[i]] of [checkJurisdiction]: the slot is non-zero and equals
    [actual]. *)
Definition slotMatch (actual : Z) (allowed : list Z) (i : nat) : Z :=
  let isNonZero := api.Cmp (nth i allowed 0) 0 in
  let diff := api.Sub actual (nth i allowed 0) in
  let isMatch := api.IsZero diff in
  api.Mul isNonZero isMatch.

(** First loop of [checkJurisdiction]: [for i := 0; i < 10; i++]. *)
Definition matches (actual : Z) (allowed : list Z) : list Z :=
  map (slotMatch actual allowed) (seq 0 10).

(** [checkJurisdiction]: the sum of the ten matches compared with 0. *)
Definition checkJurisdiction (actual : Z) (allowed : list Z) : Z :=
  let sum := fold_left api.Add (matches actual allowed) 0 in
  let sumCmp := api.Cmp sum 0 in
  sumCmp.

(** [checkSanctions]: 1 minus membership in the sanctioned list. *)
Definition checkSanctions (actual : Z) (sanctioned : list Z) : Z :=
  let inSanctions := checkJurisdiction actual sanctioned in
  api.Sub 1 inSanctions.

(** [checkAccreditation]. *)
Definition checkAccreditation (actual required : Z) : Z :=
  let notRequired := api.IsZero required in
  let matches := api.IsZero (api.Sub actual required) in
  let one := 1 in
  let notRequiredComplement := api.Sub one notRequired in
  let requiredAndMatches := api.Mul notRequiredComplement matches in
  api.Add notRequired requiredAndMatches.

(** The intermediate wires of [Define], named as in the source. *)
Definition ageValid (c : ZKKYC) : Z := api.Cmp (ActualAge c) (MinAge c).
Definition isOver18 (c : ZKKYC) : Z := api.Cmp (ActualAge c) 18.
Definition isOver21 (c : ZKKYC) : Z := api.Cmp (ActualAge c) 21.
Definition jurisdictionValid (c : ZKKYC) : Z :=
  checkJurisdiction (ActualJurisdiction c) (AllowedJurisdictions c).
Definition isNotSanctioned (c : ZKKYC) : Z :=
  checkSanctions (ActualJurisdiction c) (SanctionedCountries c).
Definition expiryValid (c : ZKKYC) : Z := api.Cmp (ExpiryDate c) (CurrentDate c).
Definition hashValid (c : ZKKYC) : Z :=
  let hashDiff := api.Sub (CredentialHash c) (CredentialHashPublic c) in
  api.IsZero hashDiff.
Definition accreditationValid (c : ZKKYC) : Z :=
  checkAccreditation (ActualAccredited c) (RequireAccredited c).

(** [Define]: the circuit with its three outputs assigned. *)
Definition Define (c : ZKKYC) : ZKKYC :=
  let nullifier := api.Mul (PassportNumber c) 1 in
  let p1 := api.Add (isOver18 c) (api.Mul (isOver21 c) 2) in
  let p2 := api.Add (api.Mul (expiryValid c) 4) (api.Mul (isNotSanctioned c) 8) in
  let packed := api.Add p1 p2 in
  let valid :=
    api.Mul (ageValid c)
      (api.Mul (jurisdictionValid c)
        (api.Mul (hashValid c)
          (api.Mul (accreditationValid c)
            (api.Mul (expiryValid c) (isNotSanctioned c))))) in
  {| ActualAge := ActualAge c;
     ActualJurisdiction := ActualJurisdiction c;
     ActualAccredited := ActualAccredited c;
     CredentialHash := CredentialHash c;
     PassportNumber := PassportNumber c;
     ExpiryDate := ExpiryDate c;
     MinAge := MinAge c;
     AllowedJurisdictions := AllowedJurisdictions c;
     RequireAccredited := RequireAccredited c;
     CredentialHashPublic := CredentialHashPublic c;
     RecipientAddress := RecipientAddress c;
     CurrentDate := CurrentDate c;
     SanctionedCountries := SanctionedCountries c;
     IsValid := valid;
     Nullifier := nullifier;
     PackedFlags := packed |}.

(** The assignments of the repository's circuit tests, outputs left at 0. *)
Definition validCase : ZKKYC :=
  mkZKKYC 28 1234567890 1 9876543210 1357924680 1893456000
          18 [1234567890; 1111111111; 2222222222; 0; 0; 0; 0; 0; 0; 0]
          1 9876543210 12345 1740052800
          [1122334455; 0; 0; 0; 0; 0; 0; 0; 0; 0]
          0 0 0.

Definition tooYoungCase : ZKKYC :=
  mkZKKYC 17 1234567890 1 9876543210 1357924680 1893456000
          18 [1234567890; 0; 0; 0; 0; 0; 0; 0; 0; 0]
          1 9876543210 12345 1740052800
          [0; 0; 0; 0; 0; 0; 0; 0; 0; 0]
          0 0 0.

Definition withAges (c : ZKKYC) (actual minimum : Z) : ZKKYC :=
  mkZKKYC actual (ActualJurisdiction c) (ActualAccredited c) (CredentialHash c)
          (PassportNumber c) (ExpiryDate c) minimum (AllowedJurisdictions c)
          (RequireAccredited c) (CredentialHashPublic c) (RecipientAddress c)
          (CurrentDate c) (SanctionedCountries c) (IsValid c) (Nullifier c)
          (PackedFlags c).

(** The predicates and the flag word as the specification words them, for
    comparison with what [Define] computes: ages compared with [>=], expiry
    with [>], list membership skipping empty slots. *)
Definition bit (b : bool) : Z := if b then 1 else 0.

Definition specMember (actual : Z) (slots : list Z) : bool :=
  existsb (fun s => negb (s =? 0) && (actual =? s)) slots.

Definition specSatisfied (c : ZKKYC) : bool :=
  (MinAge c <=? ActualAge c)
  && specMember (ActualJurisdiction c) (AllowedJurisdictions c)
  && negb (specMember (ActualJurisdiction c) (SanctionedCountries c))
  && (CurrentDate c <? ExpiryDate c)
  && (CredentialHash c =? CredentialHashPublic c)
  && ((RequireAccredited c =? 0) || (ActualAccredited c =? RequireAccredited c)).

Definition specPackedFlags (c : ZKKYC) : Z :=
  bit (18 <=? ActualAge c)
  + 2 * bit (21 <=? ActualAge c)
  + 4 * bit (CurrentDate c <? ExpiryDate c)
  + 8 * bit (negb (specMember (ActualJurisdiction c) (SanctionedCountries c))).

(** The valid assignment with another recipient and another policy. *)
Definition otherParty : ZKKYC :=
  mkZKKYC 40 2222222222 0 555 1357924680 1999999999
          21 [2222222222; 0; 0; 0; 0; 0; 0; 0; 0; 0]
          0 555 67890 1750000000
          [0; 0; 0; 0; 0; 0; 0; 0; 0; 0]
          0 0 0.

Definition withDates (c : ZKKYC) (expiry current : Z) : ZKKYC :=
  mkZKKYC (ActualAge c) (ActualJurisdiction c) (ActualAccredited c)
          (CredentialHash c) (PassportNumber c) expiry (MinAge c)
          (AllowedJurisdictions c) (RequireAccredited c)
          (CredentialHashPublic c) (RecipientAddress c) current
          (SanctionedCountries c) (IsValid c) (Nullifier c) (PackedFlags c).

End Circuit.


(** ** Solidity: values, reverts and events *)

Module Sol.

(** [address], [bytes32] and [uint256] values are integers; the conversions
    [uint256(uint160(user))], [uint256(credentialHash)] and [bytes32(x)] keep
    the number. *)
Definition address : Type := Z.
Definition bytes32 : Type := Z.
Definition uint256 : Type := Z.

(** The revert reasons of the two contracts, one constructor per reason
    string; [PanicArithmetic] is the panic of checked arithmetic. *)
Inductive Error : Type :=
  | TooManyJurisdictions
  | RequirementsNotSet
  | InvalidOrRevokedCredential
  | InvalidProof
  | IsValidMustBeOne
  | AgeRequirementMismatch
  | JurisdictionRequirementMismatch
  | AccreditationRequirementMismatch
  | ProofNotBoundToUser
  | CredentialHashMismatch
  | PassportExpired
  | NationalitySanctioned
  | NotOver21
  | NotOver18
  | ProofDateInFuture
  | ProofTooOld
  | UserDoesNotHaveAccess
  | NotTrustedIssuer
  | CredentialAlreadyExists
  | CredentialWasRevoked
  | CredentialDoesNotExist
  | CredentialIsRevoked
  | IdentityBoundToAnotherWallet
  | NotAuthorizedToRevoke
  | IssuerAlreadyExists
  | IssuerDoesNotExist
  | AccessControlUnauthorizedAccount
  | AccessControlBadConfirmation
  | PanicArithmetic.

Definition message (e : Error) : string :=
  match e with
  | TooManyJurisdictions => "Too many jurisdictions"
  | RequirementsNotSet => "Requirements not set"
  | InvalidOrRevokedCredential => "Invalid or revoked credential"
  | InvalidProof => "Invalid proof"
  | IsValidMustBeOne => "Circuit isValid output must be 1"
  | AgeRequirementMismatch => "Age requirement mismatch"
  | JurisdictionRequirementMismatch => "Jurisdiction requirement mismatch"
  | AccreditationRequirementMismatch => "Accreditation requirement mismatch"
  | ProofNotBoundToUser => "Proof not bound to this user"
  | CredentialHashMismatch => "Credential hash mismatch"
  | PassportExpired => "Passport expired"
  | NationalitySanctioned => "Nationality sanctioned"
  | NotOver21 => "Not over 21"
  | NotOver18 => "Not over 18"
  | ProofDateInFuture => "Proof date in future"
  | ProofTooOld => "Proof too old"
  | UserDoesNotHaveAccess => "User does not have access"
  | NotTrustedIssuer => "Not trusted issuer"
  | CredentialAlreadyExists => "Credential already exists"
  | CredentialWasRevoked => "Credential was revoked"
  | CredentialDoesNotExist => "Credential does not exist"
  | CredentialIsRevoked => "Credential is revoked"
  | IdentityBoundToAnotherWallet => "Identity bound to another wallet"
  | NotAuthorizedToRevoke => "Not authorized to revoke"
  | IssuerAlreadyExists => "Issuer already exists"
  | IssuerDoesNotExist => "Issuer does not exist"
  | AccessControlUnauthorizedAccount => "AccessControlUnauthorizedAccount"
  | AccessControlBadConfirmation => "AccessControlBadConfirmation"
  | PanicArithmetic => "Panic(0x11)"
  end.

(** The failure classes of the specification's error taxonomy, and the class
    of each revert reason; reasons the taxonomy does not name are
    [Unclassified]. *)
Inductive FailureKind : Type :=
  | PolicyNotSet
  | InvalidCredential
  | ProofRejected
  | PolicyMismatch
  | ComplianceFlagFailure
  | FreshnessViolation
  | IdentityConflict
  | RegistryConflict
  | Unclassified.

Definition classify (e : Error) : FailureKind :=
  match e with
  | RequirementsNotSet => PolicyNotSet
  | InvalidOrRevokedCredential | CredentialDoesNotExist | CredentialIsRevoked =>
      InvalidCredential
  | InvalidProof | IsValidMustBeOne => ProofRejected
  | AgeRequirementMismatch | JurisdictionRequirementMismatch
  | AccreditationRequirementMismatch | ProofNotBoundToUser
  | CredentialHashMismatch => PolicyMismatch
  | PassportExpired | NationalitySanctioned | NotOver21 | NotOver18 =>
      ComplianceFlagFailure
  | ProofDateInFuture | ProofTooOld => FreshnessViolation
  | IdentityBoundToAnotherWallet => IdentityConflict
  | CredentialAlreadyExists | CredentialWasRevoked => RegistryConflict
  | _ => Unclassified
  end.

(** Outcome of a call: a value, or a revert that discards every write. *)
Inductive result (A : Type) : Type :=
  | Ok (a : A)
  | Revert (e : Error).
Arguments Ok {A} a.
Arguments Revert {A} e.

#[global] Instance result_ret : MRet result := @Ok.
#[global] Instance result_bind : MBind result :=
  fun A B f m => match m with Ok a => f a | Revert e => Revert e end.

Definition require (cond : bool) (e : Error) : result unit :=
  if cond then Ok tt else Revert e.

(** Checked subtraction of Solidity 0.8 on unsigned integers. *)
Definition checked_sub (a b : uint256) : result uint256 :=
  if b <=? a then Ok (a - b) else Revert PanicArithmetic.

(** [for (uint i = start; ...; i++)] running [n] iterations. *)
Fixpoint forLoop (body : nat -> result unit) (start n : nat) : result unit :=
  match n with
  | O => Ok tt
  | S n' => body start;; forLoop body (S start) n'
  end.

Inductive Event : Type :=
  | RequirementsSet (protocol : address) (minAge : uint256)
      (allowedJurisdictions : list uint256) (requireAccredited : bool)
  | AccessGranted (user protocol : address) (credentialHash : bytes32)
      (timestamp : uint256)
  | AccessRevoked (user protocol : address) (timestamp : uint256)
  | CredentialIssued (user : address) (credentialHash : bytes32)
      (issuer : address) (timestamp : uint256)
  | CredentialRevoked (credentialHash : bytes32) (issuer : address)
      (timestamp : uint256)
  | IssuerAdded (issuer : address) (name : string)
  | IssuerRemoved (issuer : address)
  | NullifierRegistered (nullifier credentialHash : bytes32) (user : address)
  | RoleGranted (role : bytes32) (account sender : address)
  | RoleRevoked (role : bytes32) (account sender : address).

(** The transaction context a function reads. *)
Record Env : Type := mkEnv {
  msg_sender : address;
  block_timestamp : uint256
}.

(** Reading a [mapping]: an absent key holds the zero value. *)
Definition flag `{Countable K} (m : gmap K bool) (k : K) : bool :=
  default false (m !! k).
Definition word `{Countable K} (m : gmap K Z) (k : K) : Z :=
  default 0 (m !! k).

Definition hours1 : uint256 := 3600.

End Sol.

(** ** CredentialRegistry *)

Module CredentialRegistry.
Import Sol.

Record State : Type := mkState {
  credentials : gmap bytes32 bool;
  credentialIssuers : gmap bytes32 address;
  revokedCredentials : gmap bytes32 bool;
  trustedIssuers : gmap address bool;
  issuerNames : gmap address string;
  nullifierOwners : gmap bytes32 address;
  userToCredential : gmap address bytes32;
  roles : gmap (bytes32 * address) bool
}.

Definition DEFAULT_ADMIN_ROLE : bytes32 := 0.

Definition hasRole (st : State) (role : bytes32) (account : address) : bool :=
  flag (roles st) (role, account).

Definition set_roles (st : State) (r : gmap (bytes32 * address) bool) : State :=
  mkState (credentials st) (credentialIssuers st) (revokedCredentials st)
          (trustedIssuers st) (issuerNames st) (nullifierOwners st)
          (userToCredential st) r.

(** [_grantRole] and [_revokeRole] of the inherited AccessControl. *)
Definition _grantRole (env : Env) (st : State) (role : bytes32)
    (account : address) : State * list Event :=
  if hasRole st role account then (st, [])
  else (set_roles st (<[(role, account) := true]> (roles st)),
        [RoleGranted role account (msg_sender env)]).

Definition _revokeRole (env : Env) (st : State) (role : bytes32)
    (account : address) : State * list Event :=
  if hasRole st role account
  then (set_roles st (<[(role, account) := false]> (roles st)),
        [RoleRevoked role account (msg_sender env)])
  else (st, []).

Definition onlyRole (env : Env) (st : State) (role : bytes32) : result unit :=
  require (hasRole st role (msg_sender env)) AccessControlUnauthorizedAccount.

Definition onlyIssuer (env : Env) (st : State) : result unit :=
  require (flag (trustedIssuers st) (msg_sender env)) NotTrustedIssuer.

Definition registerCredential (env : Env) (st : State)
    (credentialHash : bytes32) (user : address) : result (State * list Event) :=
  onlyIssuer env st;;
  require (negb (flag (credentials st) credentialHash)) CredentialAlreadyExists;;
  require (negb (flag (revokedCredentials st) credentialHash)) CredentialWasRevoked;;
  Ok (mkState (<[credentialHash := true]> (credentials st))
              (<[credentialHash := msg_sender env]> (credentialIssuers st))
              (revokedCredentials st) (trustedIssuers st) (issuerNames st)
              (nullifierOwners st)
              (<[user := credentialHash]> (userToCredential st))
              (roles st),
      [CredentialIssued user credentialHash (msg_sender env) (block_timestamp env)]).

Definition registerNullifier (env : Env) (st : State)
    (nullifier credentialHash : bytes32) (user : address)
    : result (State * list Event) :=
  require (flag (credentials st) credentialHash) CredentialDoesNotExist;;
  require (negb (flag (revokedCredentials st) credentialHash)) CredentialIsRevoked;;
  st' ← (if word (nullifierOwners st) nullifier =? 0
         then Ok (mkState (credentials st) (credentialIssuers st)
                          (revokedCredentials st) (trustedIssuers st)
                          (issuerNames st)
                          (<[nullifier := user]> (nullifierOwners st))
                          (userToCredential st) (roles st))
         else
           require (word (nullifierOwners st) nullifier =? user)
                   IdentityBoundToAnotherWallet;;
           Ok st);
  Ok (st', [NullifierRegistered nullifier credentialHash user]).

Definition revokeCredential (env : Env) (st : State) (credentialHash : bytes32)
    : result (State * list Event) :=
  require (flag (credentials st) credentialHash) CredentialDoesNotExist;;
  require ((word (credentialIssuers st) credentialHash =? msg_sender env)
           || hasRole st DEFAULT_ADMIN_ROLE (msg_sender env))
          NotAuthorizedToRevoke;;
  Ok (mkState (credentials st) (credentialIssuers st)
              (<[credentialHash := true]> (revokedCredentials st))
              (trustedIssuers st) (issuerNames st) (nullifierOwners st)
              (userToCredential st) (roles st),
      [CredentialRevoked credentialHash (msg_sender env) (block_timestamp env)]).

Definition isCredentialValid (st : State) (credentialHash : bytes32) : bool :=
  flag (credentials st) credentialHash
  && negb (flag (revokedCredentials st) credentialHash).

Section Roles.

(** [keccak256("ISSUER_MANAGER_ROLE")]. *)
Variable ISSUER_MANAGER_ROLE : bytes32.

Definition constructor (env : Env) : State :=
  let st0 := mkState ∅ ∅ ∅ ∅ ∅ ∅ ∅ ∅ in
  let st1 := fst (_grantRole env st0 DEFAULT_ADMIN_ROLE (msg_sender env)) in
  fst (_grantRole env st1 ISSUER_MANAGER_ROLE (msg_sender env)).

Definition addIssuer (env : Env) (st : State) (issuer : address) (name : string)
    : result (State * list Event) :=
  onlyRole env st ISSUER_MANAGER_ROLE;;
  require (negb (flag (trustedIssuers st) issuer)) IssuerAlreadyExists;;
  Ok (mkState (credentials st) (credentialIssuers st) (revokedCredentials st)
              (<[issuer := true]> (trustedIssuers st))
              (<[issuer := name]> (issuerNames st))
              (nullifierOwners st) (userToCredential st) (roles st),
      [IssuerAdded issuer name]).

Definition removeIssuer (env : Env) (st : State) (issuer : address)
    : result (State * list Event) :=
  onlyRole env st ISSUER_MANAGER_ROLE;;
  require (flag (trustedIssuers st) issuer) IssuerDoesNotExist;;
  Ok (mkState (credentials st) (credentialIssuers st) (revokedCredentials st)
              (<[issuer := false]> (trustedIssuers st))
              (issuerNames st)
              (nullifierOwners st) (userToCredential st) (roles st),
      [IssuerRemoved issuer]).

(** The inherited role administration; no role has its admin changed, so
    every role is administered by [DEFAULT_ADMIN_ROLE]. *)
Definition grantRole (env : Env) (st : State) (role : bytes32)
    (account : address) : result (State * list Event) :=
  onlyRole env st DEFAULT_ADMIN_ROLE;;
  Ok (_grantRole env st role account).

Definition revokeRole (env : Env) (st : State) (role : bytes32)
    (account : address) : result (State * list Event) :=
  onlyRole env st DEFAULT_ADMIN_ROLE;;
  Ok (_revokeRole env st role account).

Definition renounceRole (env : Env) (st : State) (role : bytes32)
    (callerConfirmation : address) : result (State * list Event) :=
  require (callerConfirmation =? msg_sender env) AccessControlBadConfirmation;;
  Ok (_revokeRole env st role callerConfirmation).

(** The state-changing entry points, and a transaction: a call with its
    sender and block time. *)
Inductive Call : Type :=
  | RegisterCredential (credentialHash : bytes32) (user : address)
  | RegisterNullifier (nullifier credentialHash : bytes32) (user : address)
  | RevokeCredential (credentialHash : bytes32)
  | AddIssuer (issuer : address) (name : string)
  | RemoveIssuer (issuer : address)
  | GrantRole (role : bytes32) (account : address)
  | RevokeRole (role : bytes32) (account : address)
  | RenounceRole (role : bytes32) (callerConfirmation : address).

Definition exec (st : State) (tx : Env * Call) : result (State * list Event) :=
  let env := fst tx in
  match snd tx with
  | RegisterCredential h u => registerCredential env st h u
  | RegisterNullifier n h u => registerNullifier env st n h u
  | RevokeCredential h => revokeCredential env st h
  | AddIssuer i name => addIssuer env st i name
  | RemoveIssuer i => removeIssuer env st i
  | GrantRole r a => grantRole env st r a
  | RevokeRole r a => revokeRole env st r a
  | RenounceRole r a => renounceRole env st r a
  end.

(** The state a transaction leaves: a revert leaves it as it was. *)
Definition step (st : State) (tx : Env * Call) : State :=
  match exec st tx with
  | Ok (st', _) => st'
  | Revert _ => st
  end.

Definition run (st : State) (txs : list (Env * Call)) : State :=
  fold_left step txs st.

End Roles.

End CredentialRegistry.

(** ** ProtocolAccessControl *)

Module ProtocolAccessControl.
Import Sol.

Definition INDEX_MIN_AGE : nat := 0.
Definition INDEX_JURISDICTION_START : nat := 1.
Definition INDEX_ACCREDITED : nat := 11.
Definition INDEX_CREDENTIAL_HASH : nat := 12.
Definition INDEX_USER_ADDRESS : nat := 13.
Definition INDEX_CURRENT_DATE : nat := 14.
Definition INDEX_IS_VALID : nat := 25.
Definition INDEX_NULLIFIER : nat := 26.
Definition INDEX_PACKED_FLAGS : nat := 27.

Record Requirements : Type := mkRequirements {
  minAge : uint256;
  allowedJurisdictions : list uint256;
  requireAccredited : bool;
  isSet : bool
}.

Definition noRequirements : Requirements := mkRequirements 0 [] false false.

Record State : Type := mkState {
  protocolRequirements : gmap address Requirements;
  hasAccess : gmap (address * address) bool;
  userCredentials : gmap (address * address) bytes32
}.

(** The contract together with the registry it was deployed with. *)
Record World : Type := mkWorld {
  pac : State;
  registry : CredentialRegistry.State
}.

(** A Groth16 proof as the contract receives it: [a], [b], [c]. *)
Record ZKProof : Type := mkProof {
  proof_a : Z * Z;
  proof_b : (Z * Z) * (Z * Z);
  proof_c : Z * Z
}.

(** [publicSignals[i]] of the [uint[28]] array. *)
Definition signal (publicSignals : list uint256) (i : nat) : uint256 :=
  nth i publicSignals 0.

Definition setRequirements (env : Env) (w : World) (minAge : uint256)
    (allowedJurisdictions : list uint256) (requireAccredited : bool)
    : result (World * list Event) :=
  require (length allowedJurisdictions <=? 10)%nat TooManyJurisdictions;;
  Ok (mkWorld
        (mkState
           (<[msg_sender env :=
                mkRequirements minAge allowedJurisdictions requireAccredited true]>
              (protocolRequirements (pac w)))
           (hasAccess (pac w)) (userCredentials (pac w)))
        (registry w),
      [RequirementsSet (msg_sender env) minAge allowedJurisdictions
         requireAccredited]).

(** [protocolRequirements[protocol]]. *)
Definition requirementsOf (w : World) (protocol : address) : Requirements :=
  default noRequirements (protocolRequirements (pac w) !! protocol).

Section Deployment.

(** The verifier contract behind [IZKVerifier], an oracle on the proof and
    the public signals, and the address of this contract, which is the
    sender the registry sees. *)
Variable verifyProof : ZKProof -> list uint256 -> bool.
Variable this : address.

(** Body of the jurisdiction loop at index [i]. *)
Definition jurisdictionCheck (req : Requirements) (publicSignals : list uint256)
    (i : nat) : result unit :=
  let proofJurisdiction := signal publicSignals (INDEX_JURISDICTION_START + i) in
  if (i <? length (allowedJurisdictions req))%nat
  then require (proofJurisdiction =? nth i (allowedJurisdictions req) 0)
               JurisdictionRequirementMismatch
  else require (proofJurisdiction =? 0) JurisdictionRequirementMismatch.

Definition verifyAndGrantAccess (env : Env) (w : World) (prf : ZKProof)
    (publicSignals : list uint256) (credentialHash : bytes32) (user : address)
    : result (World * list Event) :=
  let req := requirementsOf w (msg_sender env) in
  require (isSet req) RequirementsNotSet;;
  require (CredentialRegistry.isCredentialValid (registry w) credentialHash)
          InvalidOrRevokedCredential;;
  let proofValid := verifyProof prf publicSignals in
  require proofValid InvalidProof;;
  require (signal publicSignals INDEX_IS_VALID =? 1) IsValidMustBeOne;;
  require (signal publicSignals INDEX_MIN_AGE =? minAge req)
          AgeRequirementMismatch;;
  forLoop (jurisdictionCheck req publicSignals) 0 10;;
  let reqAccredited := if requireAccredited req then 1 else 0 in
  require (signal publicSignals INDEX_ACCREDITED =? reqAccredited)
          AccreditationRequirementMismatch;;
  require (signal publicSignals INDEX_USER_ADDRESS =? user) ProofNotBoundToUser;;
  let truncatedHash := Z.land credentialHash 0xFFFFFFFFFFFFFFF in
  require (signal publicSignals INDEX_CREDENTIAL_HASH =? truncatedHash)
          CredentialHashMismatch;;
  let packedFlags := signal publicSignals INDEX_PACKED_FLAGS in
  require (negb (Z.land packedFlags 0x4 =? 0)) PassportExpired;;
  require (negb (Z.land packedFlags 0x8 =? 0)) NationalitySanctioned;;
  (if 21 <=? minAge req
   then require (negb (Z.land packedFlags 0x2 =? 0)) NotOver21
   else if 18 <=? minAge req
   then require (negb (Z.land packedFlags 0x1 =? 0)) NotOver18
   else Ok tt);;
  require (signal publicSignals INDEX_CURRENT_DATE <=? block_timestamp env)
          ProofDateInFuture;;
  oldest ← checked_sub (block_timestamp env) hours1;
  require (oldest <=? signal publicSignals INDEX_CURRENT_DATE) ProofTooOld;;
  let nullifier := signal publicSignals INDEX_NULLIFIER in
  '(reg', regEvents) ←
    CredentialRegistry.registerNullifier
      (mkEnv this (block_timestamp env)) (registry w)
      nullifier credentialHash user;
  Ok (mkWorld
        (mkState (protocolRequirements (pac w))
                 (<[(msg_sender env, user) := true]> (hasAccess (pac w)))
                 (<[(msg_sender env, user) := credentialHash]>
                    (userCredentials (pac w))))
        reg',
      regEvents ++
      [AccessGranted user (msg_sender env) credentialHash (block_timestamp env)]).

Definition checkAccess (env : Env) (w : World) (user : address) : bool :=
  flag (hasAccess (pac w)) (msg_sender env, user).

Definition revokeAccess (env : Env) (w : World) (user : address)
    : result (World * list Event) :=
  require (flag (hasAccess (pac w)) (msg_sender env, user))
          UserDoesNotHaveAccess;;
  Ok (mkWorld
        (mkState (protocolRequirements (pac w))
                 (<[(msg_sender env, user) := false]> (hasAccess (pac w)))
                 (userCredentials (pac w)))
        (registry w),
      [AccessRevoked user (msg_sender env) (block_timestamp env)]).

(** The world a call leaves: a revert leaves it as it was. *)
Definition commit (w : World) (r : result (World * list Event)) : World :=
  match r with
  | Ok (w', _) => w'
  | Revert _ => w
  end.

(** The conditions of the call in the words of the specification. The
    jurisdiction slots of the signals equal the policy list padded with
    zeros to ten slots: *)
Definition jurisdictionsMatch (req : Requirements) (publicSignals : list uint256)
    : Prop :=
  forall i : nat, (i < 10)%nat ->
    ((i < length (allowedJurisdictions req))%nat ->
       signal publicSignals (1 + i) = nth i (allowedJurisdictions req) 0) /\
    ((length (allowedJurisdictions req) <= i)%nat ->
       signal publicSignals (1 + i) = 0).

(** checks (1) to (5): policy set, credential valid, proof accepted,
    [isValid] signal 1, same minimum age; *)
Definition passesUpToAge (env : Env) (w : World) (prf : ZKProof)
    (publicSignals : list uint256) (credentialHash : bytes32) : Prop :=
  isSet (requirementsOf w (msg_sender env)) = true /\
  CredentialRegistry.isCredentialValid (registry w) credentialHash = true /\
  verifyProof prf publicSignals = true /\
  signal publicSignals 25 = 1 /\
  signal publicSignals 0 = minAge (requirementsOf w (msg_sender env)).

(** every check other than the freshness window, the nullifier registration
    included. *)
Definition passesAllButFreshness (env : Env) (w : World) (prf : ZKProof)
    (publicSignals : list uint256) (credentialHash : bytes32) (user : address)
    : Prop :=
  passesUpToAge env w prf publicSignals credentialHash /\
  jurisdictionsMatch (requirementsOf w (msg_sender env)) publicSignals /\
  signal publicSignals 11
    = (if requireAccredited (requirementsOf w (msg_sender env)) then 1 else 0) /\
  signal publicSignals 13 = user /\
  signal publicSignals 12 = Z.land credentialHash (2 ^ 60 - 1) /\
  Z.testbit (signal publicSignals 27) 2 = true /\
  Z.testbit (signal publicSignals 27) 3 = true /\
  (21 <= minAge (requirementsOf w (msg_sender env)) ->
     Z.testbit (signal publicSignals 27) 1 = true) /\
  (18 <= minAge (requirementsOf w (msg_sender env)) < 21 ->
     Z.testbit (signal publicSignals 27) 0 = true) /\
  (word (CredentialRegistry.nullifierOwners (registry w))
        (signal publicSignals 26) = 0 \/
   word (CredentialRegistry.nullifierOwners (registry w))
        (signal publicSignals 26) = user).

End Deployment.

End ProtocolAccessControl.

(** ** Transactions on the deployed pair of contracts *)

Module Ledger.
Import Sol ProtocolAccessControl.

Section Deployment.

Variable verifyProof : ZKProof -> list uint256 -> bool.
Variable this : address.
Variable ISSUER_MANAGER_ROLE : bytes32.

(** A transaction calls one state-changing function of the access control
    contract, or one of the registry directly. *)
Inductive Call : Type :=
  | SetRequirements (minAge : uint256) (allowedJurisdictions : list uint256)
      (requireAccredited : bool)
  | VerifyAndGrantAccess (prf : ZKProof) (publicSignals : list uint256)
      (credentialHash : bytes32) (user : address)
  | RevokeAccess (user : address)
  | Registry (call : CredentialRegistry.Call).

Definition exec (w : World) (tx : Env * Call) : result (World * list Event) :=
  let env := fst tx in
  match snd tx with
  | SetRequirements minAge allowed accredited =>
      setRequirements env w minAge allowed accredited
  | VerifyAndGrantAccess prf publicSignals credentialHash user =>
      verifyAndGrantAccess verifyProof this env w prf publicSignals
        credentialHash user
  | RevokeAccess user => revokeAccess env w user
  | Registry call =>
      '(reg', events) ←
        CredentialRegistry.exec ISSUER_MANAGER_ROLE (registry w) (env, call);
      Ok (mkWorld (pac w) reg', events)
  end.

Definition step (w : World) (tx : Env * Call) : World := commit w (exec w tx).

Definition run (w : World) (txs : list (Env * Call)) : World :=
  fold_left step txs w.

(** The world at deployment: an empty access control contract beside a
    registry. *)
Definition deployed (reg : CredentialRegistry.State) : World :=
  mkWorld (mkState ∅ ∅ ∅) reg.

End Deployment.

End Ledger.

(** ** Conditions kept by every reachable state *)

Module RegistryInvariants.
Import Sol CredentialRegistry.

(** Every hash marked revoked also exists. *)
Definition revokedExists (st : State) : Prop :=
  forall h : bytes32,
    flag (revokedCredentials st) h = true -> flag (credentials st) h = true.

End RegistryInvariants.

Module LedgerInvariants.
Import Sol ProtocolAccessControl.

(** Every granted access records a credential hash that exists in the
    registry. *)
Definition grantsHaveCredentials (w : World) : Prop :=
  forall protocol user : address,
    flag (hasAccess (pac w)) (protocol, user) = true ->
    flag (CredentialRegistry.credentials (registry w))
         (word (userCredentials (pac w)) (protocol, user)) = true.

End LedgerInvariants.

(** ** The circuit's public signals as the contract indexes them *)

Module Signals.
Import Circuit.

(** The public fields of [ZKKYC] in declaration order, which is the order of
    the 28 signals documented on [IZKVerifier.verifyProof]. *)
Definition publicSignalsOf (c : ZKKYC) : list Z :=
  [MinAge c] ++ AllowedJurisdictions c
  ++ [RequireAccredited c; CredentialHashPublic c; RecipientAddress c;
      CurrentDate c]
  ++ SanctionedCountries c
  ++ [IsValid c; Nullifier c; PackedFlags c].

(** [actual] equals a non-empty slot among the first ten of [slots], as
    field elements. *)
Definition member (actual : Z) (slots : list Z) : Prop :=
  exists i : nat, (i < 10)%nat /\ nth i slots 0 mod q <> 0 /\
                  nth i slots 0 mod q = actual mod q.

End Signals.

(** ** The deployment of the contract tests

    The [setUp] of the repository's access-control tests: a registry with one
    trusted issuer and one registered credential, a mock verifier that
    accepts every proof, block time one day. *)

Module Fixture.
Import Sol.

Definition deployer : address := 0x7FA9385bE102ac3EAc297483Dd6233D62b3e1496.
Definition protocol : address := 1.
Definition user : address := 2.
Definition issuer : address := 3.
Definition otherUser : address := 4.
Definition accessControl : address := 0x5615dEB798BB3E4dFa0139dFa1b3D433Cc23b72f.
Definition managerRole : bytes32 := 0x1a2b.
Definition credentialHash : bytes32 :=
  0x3c9d4a1f0e8b7a6d5c4b3a2918070605f4e3d2c1b0a99887766554433221100f.
Definition day1 : uint256 := 86400.

Definition mockVerifier (prf : ProtocolAccessControl.ZKProof)
    (publicSignals : list uint256) : bool := true.

Definition mockProof : ProtocolAccessControl.ZKProof :=
  ProtocolAccessControl.mkProof (1, 2) ((3, 4), (5, 6)) (7, 8).

Definition registry : CredentialRegistry.State :=
  CredentialRegistry.run managerRole
    (CredentialRegistry.constructor managerRole (mkEnv deployer 1))
    [(mkEnv deployer 1, CredentialRegistry.AddIssuer issuer "Test KYC Provider");
     (mkEnv issuer day1, CredentialRegistry.RegisterCredential credentialHash user)].

Definition world0 : ProtocolAccessControl.World :=
  ProtocolAccessControl.mkWorld
    (ProtocolAccessControl.mkState ∅ ∅ ∅) registry.

(** The world after [setRequirements(minAge, jurisdictions, false)] by
    [protocol]. *)
Definition worldWith (minAge : uint256) (jurisdictions : list uint256)
    : ProtocolAccessControl.World :=
  ProtocolAccessControl.commit world0
    (ProtocolAccessControl.setRequirements (mkEnv protocol day1) world0
       minAge jurisdictions false).

(** The 28 public signals of the tests: one jurisdiction list of ten slots,
    the proof date, the sanctioned list of ten slots and the nullifier vary. *)
Definition signalsOf (jurisdictions : list uint256) (currentDate : uint256)
    (sanctioned : list uint256) (nullifier : uint256) : list uint256 :=
  [18] ++ jurisdictions
  ++ [0; Z.land credentialHash 0xFFFFFFFFFFFFFFF; user; currentDate]
  ++ sanctioned ++ [1; nullifier; 15].

Definition oneJurisdiction : list uint256 :=
  [1234567890; 0; 0; 0; 0; 0; 0; 0; 0; 0].
Definition noSanctions : list uint256 := [0; 0; 0; 0; 0; 0; 0; 0; 0; 0].
Definition someSanctions : list uint256 :=
  [408; 364; 0; 0; 0; 0; 0; 0; 0; 0].

(** The registry after [registerNullifier(77, credentialHash, user)], and a
    later history: a rebinding attempt, a new issuer, a revocation. *)
Definition stranger : address := 0xBEEF.


Definition laterCalls : list (Env * CredentialRegistry.Call) :=
  [(mkEnv stranger day1, CredentialRegistry.RegisterNullifier 77 credentialHash otherUser);
   (mkEnv deployer day1, CredentialRegistry.AddIssuer otherUser "Second issuer");
   (mkEnv otherUser day1, CredentialRegistry.RegisterCredential 555 otherUser);
   (mkEnv accessControl day1, CredentialRegistry.RegisterNullifier 77 555 otherUser);
   (mkEnv deployer day1, CredentialRegistry.GrantRole 0 stranger);
   (mkEnv stranger day1, CredentialRegistry.RevokeCredential credentialHash)].


Definition call (w : ProtocolAccessControl.World) (now : uint256)
    (publicSignals : list uint256) (who : address) :=
  ProtocolAccessControl.verifyAndGrantAccess mockVerifier accessControl
    (mkEnv protocol now) w mockProof publicSignals credentialHash who.

End Fixture.

(** ** Further states of the test deployment *)

Module Scenarios.
Import Sol Fixture.

(** Registry states around the fixture: before the credential is
    registered, after its revocation, after the issuer's removal, with a
    second issuer added and removed, and after a nullifier registration for
    the zero address. *)
Definition registryBeforeCredential : CredentialRegistry.State :=
  CredentialRegistry.run managerRole
    (CredentialRegistry.constructor managerRole (mkEnv deployer 1))
    [(mkEnv deployer 1, CredentialRegistry.AddIssuer issuer "Test KYC Provider")].

Definition registryRevoked : CredentialRegistry.State :=
  CredentialRegistry.step managerRole registry
    (mkEnv issuer day1, CredentialRegistry.RevokeCredential credentialHash).

Definition registryIssuerRemoved : CredentialRegistry.State :=
  CredentialRegistry.step managerRole registry
    (mkEnv deployer day1, CredentialRegistry.RemoveIssuer issuer).

Definition registryOtherAdded : CredentialRegistry.State :=
  CredentialRegistry.step managerRole registry
    (mkEnv deployer day1, CredentialRegistry.AddIssuer otherUser "Second issuer").

Definition registryOtherRemoved : CredentialRegistry.State :=
  CredentialRegistry.step managerRole registryOtherAdded
    (mkEnv deployer day1, CredentialRegistry.RemoveIssuer otherUser).

Definition registryZeroBound : CredentialRegistry.State :=
  CredentialRegistry.step managerRole registry
    (mkEnv stranger day1, CredentialRegistry.RegisterNullifier 88 credentialHash 0).

(** Worlds: the policy of the tests, the grant of the first test, a second
    protocol with the same policy, the credential revoked, a second
    credential whose hash has the same low 60 bits. *)
Definition protocol2 : address := 5.

Definition world1 : ProtocolAccessControl.World := worldWith 18 [1234567890].

Definition grantSignals : list uint256 :=
  signalsOf oneJurisdiction day1 noSanctions 77.

Definition worldGranted : ProtocolAccessControl.World :=
  ProtocolAccessControl.commit world1 (call world1 day1 grantSignals user).

Definition grantEvents : list Event :=
  [NullifierRegistered 77 credentialHash user;
   AccessGranted user protocol credentialHash day1].

Definition ledgerStep :=
  Ledger.step mockVerifier accessControl managerRole.

Definition ledgerRun :=
  Ledger.run mockVerifier accessControl managerRole.

Definition worldTwoPolicies : ProtocolAccessControl.World :=
  ledgerStep world1
    (mkEnv protocol2 day1, Ledger.SetRequirements 18 [1234567890] false).

Definition worldRevoked : ProtocolAccessControl.World :=
  ledgerStep world1
    (mkEnv issuer day1,
     Ledger.Registry (CredentialRegistry.RevokeCredential credentialHash)).

Definition credentialHash2 : bytes32 := credentialHash + 2 ^ 60.

Definition worldTwoCredentials : ProtocolAccessControl.World :=
  ledgerStep world1
    (mkEnv issuer day1,
     Ledger.Registry (CredentialRegistry.RegisterCredential credentialHash2 otherUser)).

(** The first test from the deployment on, and transactions of other
    accounts that follow it. *)
Definition history : list (Env * Ledger.Call) :=
  [(mkEnv protocol day1, Ledger.SetRequirements 18 [1234567890] false);
   (mkEnv protocol day1,
    Ledger.VerifyAndGrantAccess mockProof grantSignals credentialHash user)].

Definition othersCalls : list (Env * Ledger.Call) :=
  [(mkEnv protocol2 day1, Ledger.SetRequirements 21 [] true);
   (mkEnv protocol2 day1,
    Ledger.VerifyAndGrantAccess mockProof grantSignals credentialHash user);
   (mkEnv stranger day1, Ledger.RevokeAccess user);
   (mkEnv stranger day1,
    Ledger.Registry (CredentialRegistry.RegisterNullifier 77 credentialHash otherUser));
   (mkEnv issuer day1,
    Ledger.Registry (CredentialRegistry.RevokeCredential credentialHash))].

(** A circuit assignment for the registered credential and the user's
    wallet, and a policy equal to its public inputs. *)
Definition e2eCircuit : Circuit.ZKKYC :=
  Circuit.mkZKKYC 28 1234567890 1 (Z.land credentialHash (2 ^ 60 - 1))
    1357924680 1893456000
    18 [1234567890; 1111111111; 2222222222; 0; 0; 0; 0; 0; 0; 0]
    1 (Z.land credentialHash (2 ^ 60 - 1)) user 1740052800
    [1122334455; 0; 0; 0; 0; 0; 0; 0; 0; 0]
    0 0 0.

Definition e2eWorld : ProtocolAccessControl.World :=
  ProtocolAccessControl.commit world0
    (ProtocolAccessControl.setRequirements (mkEnv protocol day1) world0
       18 [1234567890; 1111111111; 2222222222] true).

Definition e2eNow : uint256 := 1740052800 + 60.

End Scenarios.

(** ** Properties of the circuit *)

Module CircuitProps.
Import Circuit.

Lemma q_pos : 0 < q.
Proof. reflexivity. Qed.

Lemma q_gt_21 : 21 < q.
Proof. reflexivity. Qed.

Lemma Mul_0_l (a : Z) : api.Mul 0 a = 0.
Proof. unfold api.Mul. rewrite Z.mul_0_l. apply Z.mod_0_l. pose proof q_pos; lia. Qed.

Lemma Mul_0_r (a : Z) : api.Mul a 0 = 0.
Proof. unfold api.Mul. rewrite Z.mul_0_r. apply Z.mod_0_l. pose proof q_pos; lia. Qed.

Lemma Cmp_same (a : Z) : api.Cmp a a = 0.
Proof. unfold api.Cmp. now rewrite Z.compare_refl. Qed.

Lemma Cmp_gt (a b : Z) : b mod q < a mod q -> api.Cmp a b = 1.
Proof.
  intros H. unfold api.Cmp.
  destruct (Z.compare_spec (a mod q) (b mod q)); [lia | lia | reflexivity].
Qed.

Lemma Cmp_lt (a b : Z) : a mod q < b mod q -> api.Cmp a b = q - 1.
Proof.
  intros H. unfold api.Cmp.
  destruct (Z.compare_spec (a mod q) (b mod q)); [lia | reflexivity | lia].
Qed.

Lemma Cmp_zero_slot (a : Z) : a mod q = 0 -> api.Cmp a 0 = 0.
Proof.
  intros H. unfold api.Cmp. rewrite H.
  rewrite Z.mod_0_l by (pose proof q_pos; lia). reflexivity.
Qed.

Lemma IsZero_Sub_ne (a b : Z) : a mod q <> b mod q -> api.IsZero (api.Sub a b) = 0.
Proof.
  intros H. unfold api.IsZero, api.Sub.
  rewrite Z.mod_mod by (pose proof q_pos; lia).
  destruct ((a - b) mod q =? 0) eqn:E; [| reflexivity].
  apply Z.eqb_eq in E. exfalso. apply H.
  pose proof q_pos.
  rewrite <- (Z.sub_add b a) at 1.
  rewrite Z.add_mod, E, Z.add_0_l, Z.mod_mod by lia. reflexivity.
Qed.

Lemma fold_Add_zeros (l : list Z) :
  Forall (fun x => x = 0) l -> fold_left api.Add l 0 = 0.
Proof.
  induction 1 as [| x l Hx _ IH]; simpl; [reflexivity |].
  subst x. exact IH.
Qed.

(** A slot that is empty, or that differs from [actual], contributes 0. *)
Lemma slotMatch_zero (actual : Z) (allowed : list Z) (i : nat) :
  nth i allowed 0 mod q = 0 \/ nth i allowed 0 mod q <> actual mod q ->
  slotMatch actual allowed i = 0.
Proof.
  intros [H | H]; unfold slotMatch; cbv zeta.
  - rewrite (Cmp_zero_slot _ H). apply Mul_0_l.
  - rewrite IsZero_Sub_ne by congruence. apply Mul_0_r.
Qed.

Lemma checkJurisdiction_no_match (actual : Z) (allowed : list Z) :
  (forall i : nat, (i < 10)%nat ->
     nth i allowed 0 mod q = 0 \/ nth i allowed 0 mod q <> actual mod q) ->
  checkJurisdiction actual allowed = 0.
Proof.
  intros H. unfold checkJurisdiction; cbv zeta.
  rewrite fold_Add_zeros; [apply Cmp_same |].
  unfold matches. apply List.Forall_forall. intros x Hx.
  apply in_map_iff in Hx. destruct Hx as (i & <- & Hi).
  apply in_seq in Hi. apply slotMatch_zero, H. lia.
Qed.

Lemma Define_ageValid_zero (c : ZKKYC) :
  ageValid c = 0 -> IsValid (Define c) = 0.
Proof. intros H. simpl. rewrite H. apply Mul_0_l. Qed.

Lemma Define_expiryValid_zero (c : ZKKYC) :
  expiryValid c = 0 -> IsValid (Define c) = 0.
Proof.
  intros H. simpl. rewrite H.
  rewrite Mul_0_l. now rewrite !Mul_0_r.
Qed.

Lemma ageValid_at_minimum (c : ZKKYC) :
  ActualAge c = MinAge c -> ageValid c = 0.
Proof. intros H. unfold ageValid. rewrite H. apply Cmp_same. Qed.

(** When the six predicate wires are 1 the circuit is valid, and when the
    four disclosure wires are 1 the flag word is 15. *)
Lemma Define_all_wires_one (c : ZKKYC) :
  ageValid c = 1 -> jurisdictionValid c = 1 -> hashValid c = 1 ->
  accreditationValid c = 1 -> expiryValid c = 1 -> isNotSanctioned c = 1 ->
  IsValid (Define c) = 1.
Proof.
  intros Ha Hj Hh Hc He Hs. simpl. rewrite Ha, Hj, Hh, Hc, He, Hs. reflexivity.
Qed.

Lemma Define_flags_all_set (c : ZKKYC) :
  isOver18 c = 1 -> isOver21 c = 1 -> expiryValid c = 1 ->
  isNotSanctioned c = 1 -> PackedFlags (Define c) = 15.
Proof. intros H18 H21 He Hs. simpl. rewrite H18, H21, He, Hs. reflexivity. Qed.

(** The under-age assignment of the circuit tests, [ActualAge = 17] against
    [MinAge = 18] with no sanctioned country: the tests expect
    [IsValid = 0] and [PackedFlags = 12]; [Define] assigns -1 and 9. *)
Lemma tooYoung_outputs :
  IsValid (Define tooYoungCase) = q - 1 /\
  PackedFlags (Define tooYoungCase) = 9.
Proof. split; vm_compute; reflexivity. Qed.

(** The age wire and the expiry wire are the same gate on different
    operands: whatever the expiry wire gives on equal dates, the age wire
    gives on an age equal to the minimum. *)
Lemma age_and_expiry_share_gate (c : ZKKYC) :
  ageValid c = expiryValid (withDates c (ActualAge c) (MinAge c)).
Proof. reflexivity. Qed.

(** The age wire is 1 exactly when the age is strictly above the minimum. *)
Lemma ageValid_one_iff (c : ZKKYC) :
  ageValid c = 1 <-> MinAge c mod q < ActualAge c mod q.
Proof.
  unfold ageValid, api.Cmp.
  destruct (Z.compare_spec (ActualAge c mod q) (MinAge c mod q)) as [E | E | E].
  - split; [discriminate | lia].
  - split; [| lia]. intros H. exfalso. revert H. clear. discriminate.
  - split; [intros _; exact E | reflexivity].
Qed.

(** C1. The age predicate is specified as [actualAge >= minAge], so that an
    age equal to the policy minimum passes and, the other predicates
    holding, [IsValid] is 1. At the valid test assignment with
    [ActualAge = MinAge = 18] the specified predicates all hold, yet
    [ageValid] is 0, the result of [Cmp] on equal operands, and [IsValid]
    is 0. *)
Theorem age_equal_to_minimum_is_rejected :
  specSatisfied (withAges validCase 18 18) = true /\
  ageValid (withAges validCase 18 18) = 0 /\
  IsValid (Define (withAges validCase 18 18)) = 0.
Proof.
  split; [reflexivity |].
  assert (H : ageValid (withAges validCase 18 18) = 0)
    by (apply ageValid_at_minimum; reflexivity).
  split; [exact H | apply Define_ageValid_zero, H].
Qed.

(** C4. A witness satisfying every predicate is specified to get
    [IsValid = 1] and the four disclosure bits as [PackedFlags]. At the valid
    test assignment with [ActualAge = 19] the predicates hold and [IsValid]
    is 1, but [isOver21] is -1, not 0, so [PackedFlags] is 11 (bits 0, 1
    and 3) where the disclosure bits give 13 (bits 0, 2 and 3). *)
Theorem packedFlags_of_nineteen_year_old :
  specSatisfied (withAges validCase 19 18) = true /\
  IsValid (Define (withAges validCase 19 18)) = 1 /\
  isOver21 (withAges validCase 19 18) = q - 1 /\
  PackedFlags (Define (withAges validCase 19 18)) = 11 /\
  specPackedFlags (withAges validCase 19 18) = 13.
Proof.
  split; [reflexivity |].
  split; [vm_compute; reflexivity |].
  split; [apply Cmp_lt; reflexivity |].
  split; vm_compute; reflexivity.
Qed.

(** C6. The expiry predicate is a strict comparison: [ExpiryDate] equal to
    [CurrentDate] gives [expiryValid = 0] and therefore [IsValid = 0]; an
    [ExpiryDate] one above [CurrentDate] gives [expiryValid = 1]. *)
Theorem expiry_is_strict (c : ZKKYC) :
  (ExpiryDate c = CurrentDate c ->
     expiryValid c = 0 /\ IsValid (Define c) = 0) /\
  (in_field (CurrentDate c) -> in_field (ExpiryDate c) ->
     ExpiryDate c = CurrentDate c + 1 -> expiryValid c = 1).
Proof.
  split.
  - intros H.
    assert (E : expiryValid c = 0)
      by (unfold expiryValid; rewrite H; apply Cmp_same).
    split; [exact E | apply Define_expiryValid_zero, E].
  - intros Hc He H. unfold expiryValid. apply Cmp_gt.
    unfold in_field in *. rewrite !Z.mod_small by lia. lia.
Qed.

Lemma expiry_is_strict_witness :
  (ExpiryDate (withDates validCase 1740052800 1740052800)
     = CurrentDate (withDates validCase 1740052800 1740052800) /\
   expiryValid (withDates validCase 1740052800 1740052800) = 0 /\
   IsValid (Define (withDates validCase 1740052800 1740052800)) = 0) /\
  (in_field (CurrentDate (withDates validCase 1740052801 1740052800)) /\
   in_field (ExpiryDate (withDates validCase 1740052801 1740052800)) /\
   ExpiryDate (withDates validCase 1740052801 1740052800)
     = CurrentDate (withDates validCase 1740052801 1740052800) + 1 /\
   expiryValid (withDates validCase 1740052801 1740052800) = 1).
Proof.
  split.
  - split; [reflexivity |].
    exact (proj1 (expiry_is_strict (withDates validCase 1740052800 1740052800))
             eq_refl).
  - assert (Hc : in_field (CurrentDate (withDates validCase 1740052801 1740052800)))
      by (split; [discriminate | reflexivity]).
    assert (He : in_field (ExpiryDate (withDates validCase 1740052801 1740052800)))
      by (split; [discriminate | reflexivity]).
    split; [exact Hc |]. split; [exact He |]. split; [reflexivity |].
    exact (proj2 (expiry_is_strict (withDates validCase 1740052801 1740052800))
             Hc He eq_refl).
Defined.

(** C7. In the membership primitive an empty slot (value 0) contributes no
    match whatever the actual value is, and when no non-empty slot equals the
    actual value the membership is 0; in particular the membership of the
    actual value 0 is 0 in every list. *)
Theorem sentinel_never_matches (actual : Z) (allowed : list Z) :
  (forall i : nat, (i < 10)%nat -> nth i allowed 0 = 0 ->
     nth i (matches actual allowed) 0 = 0) /\
  ((forall i : nat, (i < 10)%nat -> nth i allowed 0 mod q <> 0 ->
      nth i allowed 0 mod q <> actual mod q) ->
   checkJurisdiction actual allowed = 0) /\
  checkJurisdiction 0 allowed = 0.
Proof.
  split; [| split].
  - intros i Hi H0. unfold matches.
    rewrite (nth_indep _ 0 (slotMatch actual allowed 0%nat))
      by (rewrite length_map, length_seq; exact Hi).
    rewrite map_nth, seq_nth by exact Hi. simpl.
    apply slotMatch_zero. left. rewrite H0. reflexivity.
  - intros H. apply checkJurisdiction_no_match. intros i Hi.
    destruct (Z.eq_dec (nth i allowed 0 mod q) 0) as [E | E];
      [left; exact E | right; apply H; assumption].
  - apply checkJurisdiction_no_match. intros i _.
    destruct (Z.eq_dec (nth i allowed 0 mod q) 0) as [E | E];
      [left; exact E | right; exact E].
Qed.

Lemma sentinel_never_matches_witness :
  ((3 < 10)%nat /\ nth 3 (AllowedJurisdictions validCase) 0 = 0 /\
   nth 3 (matches 0 (AllowedJurisdictions validCase)) 0 = 0) /\
  checkJurisdiction 7 (AllowedJurisdictions validCase) = 0 /\
  checkJurisdiction 0 (AllowedJurisdictions validCase) = 0.
Proof.
  pose proof (sentinel_never_matches 0 (AllowedJurisdictions validCase))
    as (Hslot & _ & Hzero).
  pose proof (sentinel_never_matches 7 (AllowedJurisdictions validCase))
    as (_ & Hnone & _).
  split; [| split].
  - assert (Hlt : (3 < 10)%nat) by (unfold lt; repeat constructor).
    split; [exact Hlt |]. split; [reflexivity |].
    exact (Hslot 3%nat Hlt eq_refl).
  - apply Hnone. intros i Hi Hnz.
    do 10 (destruct i as [| i]; [vm_compute in Hnz |- *; congruence |]).
    exfalso. revert Hi. clear. unfold lt. intros Hi.
    do 10 apply le_S_n in Hi. inversion Hi.
  - exact Hzero.
Defined.

(** C8. The nullifier output depends on the passport number only: two
    circuits with the same [PassportNumber] produce the same [Nullifier],
    whatever their recipient, policy and other inputs are. *)
Theorem nullifier_depends_on_passport_only (c1 c2 : ZKKYC) :
  PassportNumber c1 = PassportNumber c2 ->
  Nullifier (Define c1) = Nullifier (Define c2).
Proof. intros H. simpl. rewrite H. reflexivity. Qed.

Lemma nullifier_depends_on_passport_only_witness :
  PassportNumber validCase = PassportNumber otherParty /\
  RecipientAddress validCase <> RecipientAddress otherParty /\
  Nullifier (Define validCase) = Nullifier (Define otherParty).
Proof.
  split; [reflexivity |]. split; [discriminate |].
  exact (nullifier_depends_on_passport_only validCase otherParty eq_refl).
Defined.

End CircuitProps.


(** ** Properties of the credential registry *)

Module RegistryProps.
Import Sol CredentialRegistry.

Ltac unfold_calls :=
  unfold registerCredential, registerNullifier, revokeCredential, addIssuer,
    removeIssuer, grantRole, revokeRole, renounceRole, onlyIssuer, onlyRole,
    _grantRole, _revokeRole, set_roles, require, mbind, result_bind in *.

Ltac split_requires :=
  repeat match goal with
         | |- context [if ?b then _ else _] => destruct b eqn:?; simpl
         end.

Lemma isCredentialValid_true (st : State) (h : bytes32) :
  isCredentialValid st h = true ->
  flag (credentials st) h = true /\ flag (revokedCredentials st) h = false.
Proof.
  unfold isCredentialValid. intros H. apply andb_prop in H as [H1 H2].
  split; [exact H1 | now apply negb_true_iff].
Qed.

Lemma registerNullifier_fresh (env : Env) (st : State) (n h : bytes32)
    (u : address) :
  isCredentialValid st h = true ->
  word (nullifierOwners st) n = 0 ->
  registerNullifier env st n h u =
    Ok (mkState (credentials st) (credentialIssuers st) (revokedCredentials st)
          (trustedIssuers st) (issuerNames st)
          (<[n := u]> (nullifierOwners st)) (userToCredential st) (roles st),
        [NullifierRegistered n h u]).
Proof.
  intros Hv Ho. apply isCredentialValid_true in Hv as [Hc Hr].
  unfold_calls. rewrite Hc, Hr, Ho. reflexivity.
Qed.

Lemma registerNullifier_same_owner (env : Env) (st : State) (n h : bytes32)
    (u : address) :
  isCredentialValid st h = true ->
  word (nullifierOwners st) n = u -> u <> 0 ->
  registerNullifier env st n h u = Ok (st, [NullifierRegistered n h u]).
Proof.
  intros Hv Ho Hu. apply isCredentialValid_true in Hv as [Hc Hr].
  unfold_calls. rewrite Hc, Hr, Ho. simpl.
  destruct (u =? 0) eqn:E; [apply Z.eqb_eq in E; contradiction |].
  now rewrite Z.eqb_refl.
Qed.


(** A successful registration leaves the nullifier owned by the user. *)
Lemma registerNullifier_binds (env : Env) (st st' : State) (n h : bytes32)
    (u : address) (evs : list Event) :
  registerNullifier env st n h u = Ok (st', evs) ->
  word (nullifierOwners st') n = u.
Proof.
  unfold_calls.
  destruct (flag (credentials st) h); simpl; [| discriminate].
  destruct (flag (revokedCredentials st) h); simpl; [discriminate |].
  destruct (word (nullifierOwners st) n =? 0) eqn:E; simpl.
  - intros [= <- _]. simpl. unfold word. now rewrite lookup_insert_eq.
  - destruct (word (nullifierOwners st) n =? u) eqn:E'; simpl; [| discriminate].
    intros [= <- _]. now apply Z.eqb_eq.
Qed.

(** [registerCredential], by contrast, is reserved to trusted issuers. *)
Lemma registerCredential_restricted (env : Env) (st : State) (h : bytes32)
    (u : address) :
  flag (trustedIssuers st) (msg_sender env) = false ->
  registerCredential env st h u = Revert NotTrustedIssuer.
Proof. intros H. unfold_calls. now rewrite H. Qed.

(** A registration succeeds only on an unbound nullifier or on one the user
    already owns. *)
Lemma registerNullifier_success_owner (env : Env) (st st' : State)
    (n h : bytes32) (u : address) (evs : list Event) :
  registerNullifier env st n h u = Ok (st', evs) ->
  word (nullifierOwners st) n = 0 \/ word (nullifierOwners st) n = u.
Proof.
  unfold_calls.
  destruct (flag (credentials st) h); simpl; [| discriminate].
  destruct (flag (revokedCredentials st) h); simpl; [discriminate |].
  destruct (Z.eqb_spec (word (nullifierOwners st) n) 0) as [E | E];
    [left; exact E |].
  destruct (Z.eqb_spec (word (nullifierOwners st) n) u) as [E' | E']; simpl;
    [right; exact E' | discriminate].
Qed.

(** No transaction changes the owner of a bound nullifier. *)
Lemma step_keeps_owner (role : bytes32) (st : State) (tx : Env * Call)
    (n : bytes32) (u : address) :
  word (nullifierOwners st) n = u -> u <> 0 ->
  word (nullifierOwners (step role st tx)) n = u.
Proof.
  intros Ho Hu. destruct tx as [env c]. unfold step, exec; simpl.
  destruct c; unfold_calls; split_requires; try exact Ho.
  match goal with H : (word _ ?k =? 0) = true |- _ =>
    apply Z.eqb_eq in H; rename H into Hk end.
  unfold word in *. rewrite lookup_insert_ne; [exact Ho |].
  intros ->. congruence.
Qed.

Lemma run_keeps_owner (role : bytes32) (txs : list (Env * Call)) (st : State)
    (n : bytes32) (u : address) :
  word (nullifierOwners st) n = u -> u <> 0 ->
  word (nullifierOwners (run role st txs)) n = u.
Proof.
  revert st. induction txs as [| tx txs IH]; intros st Ho Hu; simpl.
  - exact Ho.
  - apply IH; [apply step_keeps_owner; assumption | exact Hu].
Qed.




(** C9. [registerNullifier] does not look at its caller: the outcome and
    the resulting state are the same for every sender, and with an existing,
    unrevoked credential and an unbound nullifier the call succeeds and binds
    the nullifier to the supplied user, changing nothing else. *)
Theorem registerNullifier_ignores_caller (env1 env2 : Env) (st : State)
    (n h : bytes32) (u : address) :
  registerNullifier env1 st n h u = registerNullifier env2 st n h u /\
  (isCredentialValid st h = true -> word (nullifierOwners st) n = 0 ->
   exists st',
     registerNullifier env1 st n h u = Ok (st', [NullifierRegistered n h u]) /\
     word (nullifierOwners st') n = u /\
     nullifierOwners st' = <[n := u]> (nullifierOwners st) /\
     credentials st' = credentials st /\
     credentialIssuers st' = credentialIssuers st /\
     revokedCredentials st' = revokedCredentials st /\
     trustedIssuers st' = trustedIssuers st /\
     issuerNames st' = issuerNames st /\
     userToCredential st' = userToCredential st /\
     roles st' = roles st).
Proof.
  split; [reflexivity |].
  intros Hv Ho. eexists. split; [apply registerNullifier_fresh; assumption |].
  simpl. split; [unfold word; now rewrite lookup_insert_eq |].
  repeat split.
Qed.

Lemma registerNullifier_ignores_caller_witness :
  flag (trustedIssuers Fixture.registry) Fixture.stranger = false /\
  hasRole Fixture.registry DEFAULT_ADMIN_ROLE Fixture.stranger = false /\
  isCredentialValid Fixture.registry Fixture.credentialHash = true /\
  word (nullifierOwners Fixture.registry) 77 = 0 /\
  registerNullifier (mkEnv Fixture.stranger 5) Fixture.registry 77
    Fixture.credentialHash Fixture.user
  = registerNullifier (mkEnv Fixture.accessControl Fixture.day1) Fixture.registry
      77 Fixture.credentialHash Fixture.user /\
  exists st',
    registerNullifier (mkEnv Fixture.stranger 5) Fixture.registry 77
      Fixture.credentialHash Fixture.user
    = Ok (st', [NullifierRegistered 77 Fixture.credentialHash Fixture.user]) /\
    word (nullifierOwners st') 77 = Fixture.user.
Proof.
  assert (Hv : isCredentialValid Fixture.registry Fixture.credentialHash = true)
    by (vm_compute; reflexivity).
  assert (Ho : word (nullifierOwners Fixture.registry) 77 = 0)
    by (vm_compute; reflexivity).
  destruct (registerNullifier_ignores_caller
              (mkEnv Fixture.stranger 5)
              (mkEnv Fixture.accessControl Fixture.day1)
              Fixture.registry 77 Fixture.credentialHash Fixture.user)
    as (Hsame & Hbind).
  split; [vm_compute; reflexivity |]. split; [vm_compute; reflexivity |].
  split; [exact Hv |]. split; [exact Ho |]. split; [exact Hsame |].
  destruct (Hbind Hv Ho) as (st' & Hcall & Hown & _).
  exists st'. split; [exact Hcall | exact Hown].
Defined.

End RegistryProps.

(** ** Properties of the access control contract *)

Module AccessControlProps.
Import Sol ProtocolAccessControl.

Lemma bind_unit_inv {A : Type} (m : result unit) (k : result A) (x : A) :
  (m;; k) = Ok x -> m = Ok tt /\ k = Ok x.
Proof.
  unfold mbind, result_bind. destruct m as [[] | e]; [auto | discriminate].
Qed.

Lemma require_inv (c : bool) (e : Error) : require c e = Ok tt -> c = true.
Proof. unfold require. destruct c; [reflexivity | discriminate]. Qed.

Lemma bind_require_true {A : Type} (c : bool) (e : Error) (k : result A) :
  c = true -> (require c e;; k) = k.
Proof. intros ->. reflexivity. Qed.

Lemma bind_require_false {A : Type} (c : bool) (e : Error) (k : result A) :
  c = false -> (require c e;; k) = Revert e.
Proof. intros ->. reflexivity. Qed.

Lemma land_pow2 (a n : Z) :
  0 <= n -> (Z.land a (2 ^ n) =? 0) = negb (Z.testbit a n).
Proof.
  intros Hn.
  assert (E : Z.land a (2 ^ n) = if Z.testbit a n then 2 ^ n else 0).
  { apply Z.bits_inj'. intros m Hm.
    rewrite Z.land_spec, Z.pow2_bits_eqb by exact Hn.
    destruct (Z.eqb_spec n m) as [-> | Hne].
    - rewrite andb_true_r. destruct (Z.testbit a m).
      + rewrite Z.pow2_bits_eqb by exact Hm. now rewrite Z.eqb_refl.
      + now rewrite Z.bits_0.
    - rewrite andb_false_r. destruct (Z.testbit a n).
      + rewrite Z.pow2_bits_eqb by exact Hn.
        symmetry. now apply Z.eqb_neq.
      + now rewrite Z.bits_0. }
  rewrite E. destruct (Z.testbit a n); simpl; [| reflexivity].
  apply Z.eqb_neq. pose proof (Z.pow_pos_nonneg 2 n). lia.
Qed.

Lemma land_bit0 (a : Z) : (Z.land a 1 =? 0) = negb (Z.testbit a 0).
Proof. apply (land_pow2 a 0). lia. Qed.

Lemma land_bit1 (a : Z) : (Z.land a 2 =? 0) = negb (Z.testbit a 1).
Proof. apply (land_pow2 a 1). lia. Qed.

Lemma land_bit2 (a : Z) : (Z.land a 4 =? 0) = negb (Z.testbit a 2).
Proof. apply (land_pow2 a 2). lia. Qed.

Lemma land_bit3 (a : Z) : (Z.land a 8 =? 0) = negb (Z.testbit a 3).
Proof. apply (land_pow2 a 3). lia. Qed.

(** The loop succeeds exactly when its body does at every index. *)
Lemma forLoop_ok (body : nat -> result unit) (n start : nat) :
  forLoop body start n = Ok tt <->
  (forall i : nat, (start <= i < start + n)%nat -> body i = Ok tt).
Proof.
  revert start. induction n as [| n IH]; intros start; simpl.
  - split; [intros _ i Hi; lia | reflexivity].
  - split.
    + intros H. apply bind_unit_inv in H as [Hb Hrest].
      intros i Hi. destruct (Nat.eq_dec i start) as [-> | Hne]; [exact Hb |].
      apply (proj1 (IH (S start)) Hrest). lia.
    + intros H. rewrite (H start) by lia. simpl.
      apply IH. intros i Hi. apply H. lia.
Qed.


Lemma forLoop_ext (f g : nat -> result unit) (n start : nat) :
  (forall i : nat, (start <= i < start + n)%nat -> f i = g i) ->
  forLoop f start n = forLoop g start n.
Proof.
  revert start. induction n as [| n IH]; intros start H; simpl; [reflexivity |].
  rewrite (H start) by lia. rewrite (IH (S start)); [reflexivity |].
  intros i Hi. apply H. lia.
Qed.

Section Deployed.

Variable verifyProof : ZKProof -> list uint256 -> bool.
Variable this : address.

Local Abbreviation verifyAndGrantAccess :=
  (ProtocolAccessControl.verifyAndGrantAccess verifyProof this).
Local Abbreviation passesUpToAge :=
  (ProtocolAccessControl.passesUpToAge verifyProof).
Local Abbreviation passesAllButFreshness :=
  (ProtocolAccessControl.passesAllButFreshness verifyProof).

Lemma jurisdictionCheck_ok (req : Requirements) (sigs : list uint256) (i : nat) :
  jurisdictionCheck req sigs i = Ok tt <->
  ((i < length (allowedJurisdictions req))%nat ->
     signal sigs (1 + i) = nth i (allowedJurisdictions req) 0) /\
  ((length (allowedJurisdictions req) <= i)%nat -> signal sigs (1 + i) = 0).
Proof.
  unfold jurisdictionCheck, INDEX_JURISDICTION_START; cbv zeta.
  destruct (Nat.ltb_spec i (length (allowedJurisdictions req))) as [Hlt | Hge].
  - split.
    + intros H%require_inv. apply Z.eqb_eq in H. split; [auto | lia].
    + intros [H _]. rewrite (H Hlt), Z.eqb_refl. reflexivity.
  - split.
    + intros H%require_inv. apply Z.eqb_eq in H. split; [lia | auto].
    + intros [_ H]. rewrite (H Hge). reflexivity.
Qed.


Lemma jurisdiction_loop_ok (req : Requirements) (sigs : list uint256) :
  forLoop (jurisdictionCheck req sigs) 0 10 = Ok tt <-> jurisdictionsMatch req sigs.
Proof.
  rewrite forLoop_ok. unfold jurisdictionsMatch. split.
  - intros H i Hi. apply jurisdictionCheck_ok, H. lia.
  - intros H i Hi. apply jurisdictionCheck_ok, H. lia.
Qed.

(** A successful call has passed the jurisdiction loop and the two
    freshness comparisons. *)
Lemma success_inv (env : Env) (w w' : World) (prf : ZKProof)
    (sigs : list uint256) (h : bytes32) (user : address) (evs : list Event) :
  verifyAndGrantAccess env w prf sigs h user = Ok (w', evs) ->
  jurisdictionsMatch (requirementsOf w (msg_sender env)) sigs /\
  signal sigs 14 <= block_timestamp env /\
  hours1 <= block_timestamp env /\
  block_timestamp env - hours1 <= signal sigs 14.
Proof.
  unfold ProtocolAccessControl.verifyAndGrantAccess; cbv zeta. intros H.
  do 5 (apply bind_unit_inv in H as [_ H]).
  apply bind_unit_inv in H as [Hloop H].
  do 6 (apply bind_unit_inv in H as [_ H]).
  apply bind_unit_inv in H as [Hfuture H].
  apply require_inv, Z.leb_le in Hfuture.
  split; [now apply jurisdiction_loop_ok |]. split; [exact Hfuture |].
  unfold checked_sub in H.
  destruct (Z.leb_spec hours1 (block_timestamp env)) as [Hh | Hh];
    [| discriminate H].
  split; [exact Hh |].
  change (mbind ?f (Ok ?a)) with (f a) in H. cbv beta in H.
  apply bind_unit_inv in H as [Hold _].
  now apply require_inv, Z.leb_le in Hold.
Qed.


(** When every check before the freshness window passes, the call is the
    window check followed by the nullifier registration and the grant. *)
Lemma reach_freshness (env : Env) (w : World) (prf : ZKProof)
    (sigs : list uint256) (h : bytes32) (user : address) :
  passesAllButFreshness env w prf sigs h user ->
  verifyAndGrantAccess env w prf sigs h user =
    (require (signal sigs 14 <=? block_timestamp env) ProofDateInFuture;;
     oldest ← checked_sub (block_timestamp env) hours1;
     require (oldest <=? signal sigs 14) ProofTooOld;;
     Ok (mkWorld
           (mkState (protocolRequirements (pac w))
              (<[(msg_sender env, user) := true]> (hasAccess (pac w)))
              (<[(msg_sender env, user) := h]> (userCredentials (pac w))))
           (if word (CredentialRegistry.nullifierOwners (registry w))
                    (signal sigs 26) =? 0
            then CredentialRegistry.mkState
                   (CredentialRegistry.credentials (registry w))
                   (CredentialRegistry.credentialIssuers (registry w))
                   (CredentialRegistry.revokedCredentials (registry w))
                   (CredentialRegistry.trustedIssuers (registry w))
                   (CredentialRegistry.issuerNames (registry w))
                   (<[signal sigs 26 := user]>
                      (CredentialRegistry.nullifierOwners (registry w)))
                   (CredentialRegistry.userToCredential (registry w))
                   (CredentialRegistry.roles (registry w))
            else registry w),
         [NullifierRegistered (signal sigs 26) h user;
          AccessGranted user (msg_sender env) h (block_timestamp env)])).
Proof.
  intros ((Hset & Hcred & Hproof & Hvalid & Hage) & Hjur & Hacc & Huser & Hhash
          & Hb2 & Hb3 & H21 & H18 & Hnull).
  unfold ProtocolAccessControl.verifyAndGrantAccess; cbv zeta.
  rewrite Hset, Hcred, Hproof.
  unfold INDEX_IS_VALID, INDEX_MIN_AGE, INDEX_ACCREDITED, INDEX_USER_ADDRESS,
    INDEX_CREDENTIAL_HASH, INDEX_PACKED_FLAGS, INDEX_CURRENT_DATE,
    INDEX_NULLIFIER.
  rewrite Hvalid, Hage, Hacc, Huser, Hhash, !Z.eqb_refl.
  change (1 =? 1) with true.
  rewrite !bind_require_true by reflexivity.
  rewrite (proj2 (jurisdiction_loop_ok _ _) Hjur).
  change (mbind ?f (Ok tt)) with (f tt); cbv beta.
  rewrite land_bit0, land_bit1, land_bit2, land_bit3, Hb2, Hb3.
  rewrite !bind_require_true by reflexivity.
  assert (Hflags :
    (if 21 <=? minAge (requirementsOf w (msg_sender env))
     then require (negb (negb (Z.testbit (signal sigs 27) 1))) NotOver21
     else if 18 <=? minAge (requirementsOf w (msg_sender env))
          then require (negb (negb (Z.testbit (signal sigs 27) 0))) NotOver18
          else Ok tt) = Ok tt).
  { destruct (Z.leb_spec 21 (minAge (requirementsOf w (msg_sender env)))).
    - now rewrite H21.
    - destruct (Z.leb_spec 18 (minAge (requirementsOf w (msg_sender env)))).
      + now rewrite H18.
      + reflexivity. }
  rewrite Hflags. change (mbind ?f (Ok tt)) with (f tt); cbv beta.
  destruct (signal sigs 14 <=? block_timestamp env); [| reflexivity].
  rewrite !bind_require_true by reflexivity.
  destruct (checked_sub (block_timestamp env) hours1) as [oldest | e];
    [| reflexivity].
  change (mbind ?f (Ok oldest)) with (f oldest); cbv beta.
  destruct (oldest <=? signal sigs 14); [| reflexivity].
  rewrite !bind_require_true by reflexivity.
  apply RegistryProps.isCredentialValid_true in Hcred as [Hc Hr].
  unfold CredentialRegistry.registerNullifier. rewrite Hc, Hr.
  rewrite !bind_require_true by reflexivity.
  destruct (word (CredentialRegistry.nullifierOwners (registry w))
              (signal sigs 26) =? 0) eqn:E.
  - reflexivity.
  - destruct Hnull as [Hn | Hn]; [apply Z.eqb_neq in E; contradiction |].
    rewrite Hn, Z.eqb_refl. reflexivity.
Qed.

(** A successful call has passed every check, and its only effect on the
    registry is the nullifier registration. *)
Lemma success_passes (env : Env) (w w' : World) (prf : ZKProof)
    (sigs : list uint256) (h : bytes32) (user : address) (evs : list Event) :
  verifyAndGrantAccess env w prf sigs h user = Ok (w', evs) ->
  passesAllButFreshness env w prf sigs h user /\
  exists regEvents : list Event,
    CredentialRegistry.registerNullifier
      (mkEnv this (block_timestamp env)) (registry w) (signal sigs 26) h user
    = Ok (registry w', regEvents).
Proof.
  unfold ProtocolAccessControl.verifyAndGrantAccess; cbv zeta. intros H.
  unfold INDEX_IS_VALID, INDEX_MIN_AGE, INDEX_ACCREDITED, INDEX_USER_ADDRESS,
    INDEX_CREDENTIAL_HASH, INDEX_PACKED_FLAGS, INDEX_CURRENT_DATE,
    INDEX_NULLIFIER in H.
  apply bind_unit_inv in H as [Hset H]. apply require_inv in Hset.
  apply bind_unit_inv in H as [Hcred H]. apply require_inv in Hcred.
  apply bind_unit_inv in H as [Hproof H]. apply require_inv in Hproof.
  apply bind_unit_inv in H as [Hvalid H]. apply require_inv, Z.eqb_eq in Hvalid.
  apply bind_unit_inv in H as [Hage H]. apply require_inv, Z.eqb_eq in Hage.
  apply bind_unit_inv in H as [Hloop H]. apply jurisdiction_loop_ok in Hloop.
  apply bind_unit_inv in H as [Hacc H]. apply require_inv, Z.eqb_eq in Hacc.
  apply bind_unit_inv in H as [Huser H]. apply require_inv, Z.eqb_eq in Huser.
  apply bind_unit_inv in H as [Hhash H]. apply require_inv, Z.eqb_eq in Hhash.
  apply bind_unit_inv in H as [Hb2 H]. apply require_inv in Hb2.
  rewrite land_bit2, negb_involutive in Hb2.
  apply bind_unit_inv in H as [Hb3 H]. apply require_inv in Hb3.
  rewrite land_bit3, negb_involutive in Hb3.
  apply bind_unit_inv in H as [Hflags H].
  apply bind_unit_inv in H as [_ H].
  destruct (checked_sub (block_timestamp env) hours1) as [oldest | e];
    [| discriminate H].
  change (mbind ?f (Ok oldest)) with (f oldest) in H; cbv beta in H.
  apply bind_unit_inv in H as [_ H].
  destruct (CredentialRegistry.registerNullifier _ _ _ _ _)
    as [[reg' regEvents] | e] eqn:Hreg; [| discriminate H].
  injection H as <- _. simpl.
  split; [| exists regEvents; reflexivity].
  split; [repeat split; assumption |].
  split; [exact Hloop |].
  do 5 (split; [assumption |]).
  split; [| split].
  - intros H21. apply Z.leb_le in H21. rewrite H21 in Hflags.
    apply require_inv in Hflags.
    now rewrite land_bit1, negb_involutive in Hflags.
  - intros [H18 H21]. apply Z.leb_le in H18. apply Z.leb_gt in H21.
    rewrite H21, H18 in Hflags. apply require_inv in Hflags.
    now rewrite land_bit0, negb_involutive in Hflags.
  - eapply RegistryProps.registerNullifier_success_owner, Hreg.
Qed.

(** The call succeeds exactly when every check passes: the checks before
    the window, a block time of at least one hour, and a proof date in the
    window. *)
Lemma success_iff (env : Env) (w : World) (prf : ZKProof)
    (sigs : list uint256) (h : bytes32) (user : address) :
  (exists (w' : World) (evs : list Event),
     verifyAndGrantAccess env w prf sigs h user = Ok (w', evs)) <->
  passesAllButFreshness env w prf sigs h user /\
  hours1 <= block_timestamp env /\
  block_timestamp env - hours1 <= signal sigs 14 <= block_timestamp env.
Proof.
  split.
  - intros (w' & evs & H). split; [apply (success_passes _ _ _ _ _ _ _ _ H) |].
    apply success_inv in H. lia.
  - intros (Hpre & Hh & Hlo & Hhi). rewrite (reach_freshness _ _ _ _ _ _ Hpre).
    rewrite bind_require_true by now apply Z.leb_le.
    unfold checked_sub. rewrite (proj2 (Z.leb_le _ _) Hh).
    change (mbind ?f (Ok ?a)) with (f a); cbv beta.
    rewrite bind_require_true by now apply Z.leb_le.
    eauto.
Qed.

(** A call through the access control contract leaves every bound nullifier
    with its owner. *)
Lemma grant_keeps_owner (role : bytes32) (env : Env) (w : World) (prf : ZKProof)
    (sigs : list uint256) (h : bytes32) (user : address)
    (n : bytes32) (u : address) :
  word (CredentialRegistry.nullifierOwners (registry w)) n = u -> u <> 0 ->
  word (CredentialRegistry.nullifierOwners
          (registry (commit w (verifyAndGrantAccess env w prf sigs h user)))) n
    = u.
Proof.
  intros Ho Hu.
  destruct (verifyAndGrantAccess env w prf sigs h user) as [[w' evs] | e] eqn:E;
    simpl; [| exact Ho].
  apply success_passes in E as (_ & regEvents & Hreg).
  pose proof (RegistryProps.step_keeps_owner role (registry w)
                (mkEnv this (block_timestamp env),
                 CredentialRegistry.RegisterNullifier (signal sigs 26) h user)
                n u Ho Hu) as Hstep.
  unfold CredentialRegistry.step, CredentialRegistry.exec in Hstep.
  simpl in Hstep. rewrite Hreg in Hstep. exact Hstep.
Qed.


(** Below a block time of one hour the subtraction in the second
    comparison underflows and the call panics, which is why the contract
    tests start at a block time of one day. *)
Lemma freshness_underflow (env : Env) (w : World) (prf : ZKProof)
    (sigs : list uint256) (h : bytes32) (user : address) :
  passesAllButFreshness env w prf sigs h user ->
  signal sigs 14 <= block_timestamp env < hours1 ->
  verifyAndGrantAccess env w prf sigs h user = Revert PanicArithmetic.
Proof.
  intros Hpre [Hle Hlt]. rewrite (reach_freshness _ _ _ _ _ _ Hpre).
  rewrite bind_require_true by now apply Z.leb_le.
  unfold checked_sub. now rewrite (proj2 (Z.leb_gt _ _) Hlt).
Qed.

(** C5. The freshness window has inclusive bounds: a successful call has
    its proof date at most the block time and at least the block time minus
    one hour; with every other check passing and a block time of at least one
    hour, a proof dated 61 minutes before the block time reverts as too old,
    a freshness violation, and one dated 59 minutes before it succeeds and
    grants access. *)
Theorem freshness_window (env : Env) (w : World) (prf : ZKProof)
    (sigs : list uint256) (h : bytes32) (user : address) :
  (forall (w' : World) (evs : list Event),
     verifyAndGrantAccess env w prf sigs h user = Ok (w', evs) ->
     signal sigs 14 <= block_timestamp env /\
     block_timestamp env - hours1 <= signal sigs 14) /\
  (passesAllButFreshness env w prf sigs h user ->
   hours1 <= block_timestamp env ->
   (signal sigs 14 = block_timestamp env - 61 * 60 ->
    verifyAndGrantAccess env w prf sigs h user = Revert ProofTooOld /\
    classify ProofTooOld = FreshnessViolation) /\
   (signal sigs 14 = block_timestamp env - 59 * 60 ->
    exists (w' : World) (evs : list Event),
      verifyAndGrantAccess env w prf sigs h user = Ok (w', evs) /\
      flag (hasAccess (pac w')) (msg_sender env, user) = true) /\
   (signal sigs 14 = block_timestamp env - hours1 \/
    signal sigs 14 = block_timestamp env ->
    exists (w' : World) (evs : list Event),
      verifyAndGrantAccess env w prf sigs h user = Ok (w', evs))).
Proof.
  split.
  - intros w' evs H. apply success_inv in H. lia.
  - intros Hpre Hh. rewrite (reach_freshness _ _ _ _ _ _ Hpre).
    unfold checked_sub. rewrite (proj2 (Z.leb_le _ _) Hh).
    unfold hours1 in *. split; [| split].
    + intros Hd. split; [| reflexivity].
      rewrite bind_require_true by (apply Z.leb_le; lia).
      change (mbind ?f (Ok ?a)) with (f a); cbv beta.
      rewrite bind_require_false by (apply Z.leb_gt; lia). reflexivity.
    + intros Hd.
      rewrite bind_require_true by (apply Z.leb_le; lia).
      change (mbind ?f (Ok ?a)) with (f a); cbv beta.
      rewrite bind_require_true by (apply Z.leb_le; lia).
      eexists _, _. split; [reflexivity |].
      simpl. unfold flag. now rewrite lookup_insert_eq.
    + intros Hd.
      rewrite bind_require_true by (apply Z.leb_le; lia).
      change (mbind ?f (Ok ?a)) with (f a); cbv beta.
      rewrite bind_require_true by (apply Z.leb_le; lia).
      eauto.
Qed.

(** C10. The call never reads the signals at indices 15 to 24: for two
    signal arrays that agree everywhere else and that the verifier both
    accepts, the call gives the same outcome, the same world and the same
    events, or the same revert. Of the sanctions result the contract checks
    bit 3 of the flag word only: with it clear no call succeeds. *)
Theorem sanctioned_slots_not_read (env : Env) (w : World) (prf : ZKProof)
    (sigs1 sigs2 : list uint256) (h : bytes32) (user : address) :
  ((forall i : nat, (i < 15 \/ 24 < i)%nat -> signal sigs1 i = signal sigs2 i) ->
   verifyProof prf sigs1 = true ->
   verifyProof prf sigs2 = true ->
   verifyAndGrantAccess env w prf sigs1 h user
     = verifyAndGrantAccess env w prf sigs2 h user) /\
  (forall (w' : World) (evs : list Event),
     verifyAndGrantAccess env w prf sigs1 h user = Ok (w', evs) ->
     Z.testbit (signal sigs1 27) 3 = true).
Proof.
  split.
  - intros Hsame H1 H2.
    unfold ProtocolAccessControl.verifyAndGrantAccess; cbv zeta.
    rewrite H1, H2.
    unfold INDEX_IS_VALID, INDEX_MIN_AGE, INDEX_ACCREDITED, INDEX_USER_ADDRESS,
      INDEX_CREDENTIAL_HASH, INDEX_PACKED_FLAGS, INDEX_CURRENT_DATE,
      INDEX_NULLIFIER.
    rewrite (Hsame 25%nat), (Hsame 0%nat), (Hsame 11%nat), (Hsame 13%nat),
      (Hsame 12%nat), (Hsame 27%nat), (Hsame 14%nat), (Hsame 26%nat) by lia.
    rewrite (forLoop_ext
               (jurisdictionCheck (requirementsOf w (msg_sender env)) sigs1)
               (jurisdictionCheck (requirementsOf w (msg_sender env)) sigs2));
      [reflexivity |].
    intros i Hi. unfold jurisdictionCheck, INDEX_JURISDICTION_START; cbv zeta.
    rewrite (Hsame (1 + i)%nat) by lia. reflexivity.
  - intros w' evs H. apply success_passes in H as [Hpre _].
    apply Hpre.
Qed.

End Deployed.

Import Fixture.

Ltac fixture_pre :=
  repeat split; vm_compute; reflexivity.


Lemma fixture_jurisdictionsMatch (currentDate nullifier : uint256)
    (sanctioned : list uint256) :
  jurisdictionsMatch (requirementsOf (worldWith 18 [1234567890]) protocol)
    (signalsOf oneJurisdiction currentDate sanctioned nullifier).
Proof.
  intros i Hi.
  do 10 (destruct i as [| i];
         [split; intros Hc;
          first [reflexivity | exfalso; vm_compute in Hc; lia] |]).
  lia.
Defined.

Lemma fixture_passes (currentDate : uint256) :
  passesAllButFreshness mockVerifier (mkEnv protocol day1)
    (worldWith 18 [1234567890]) mockProof
    (signalsOf oneJurisdiction currentDate noSanctions 77) credentialHash user.
Proof.
  split; [fixture_pre |].
  split; [apply fixture_jurisdictionsMatch |].
  do 5 (split; [vm_compute; reflexivity |]).
  split; [intros _; reflexivity |].
  split; [intros _; reflexivity |].
  left. vm_compute; reflexivity.
Defined.

Lemma freshness_window_witness :
  hours1 <= day1 /\
  call (worldWith 18 [1234567890]) day1
       (signalsOf oneJurisdiction (day1 - 61 * 60) noSanctions 77) user
    = Revert ProofTooOld /\
  (exists (w' : World) (evs : list Event),
     call (worldWith 18 [1234567890]) day1
          (signalsOf oneJurisdiction (day1 - 59 * 60) noSanctions 77) user
       = Ok (w', evs) /\
     flag (hasAccess (pac w')) (protocol, user) = true) /\
  (exists (w' : World) (evs : list Event),
     call (worldWith 18 [1234567890]) day1
          (signalsOf oneJurisdiction (day1 - hours1) noSanctions 77) user
       = Ok (w', evs)).
Proof.
  assert (Hh : hours1 <= day1) by discriminate.
  split; [exact Hh |]. split; [| split].
  - exact (proj1 (proj1 (proj2 (freshness_window mockVerifier accessControl
             (mkEnv protocol day1) (worldWith 18 [1234567890]) mockProof
             (signalsOf oneJurisdiction (day1 - 61 * 60) noSanctions 77)
             credentialHash user) (fixture_passes _) Hh) eq_refl)).
  - exact (proj1 (proj2 (proj2 (freshness_window mockVerifier accessControl
             (mkEnv protocol day1) (worldWith 18 [1234567890]) mockProof
             (signalsOf oneJurisdiction (day1 - 59 * 60) noSanctions 77)
             credentialHash user) (fixture_passes _) Hh)) eq_refl).
  - exact (proj2 (proj2 (proj2 (freshness_window mockVerifier accessControl
             (mkEnv protocol day1) (worldWith 18 [1234567890]) mockProof
             (signalsOf oneJurisdiction (day1 - hours1) noSanctions 77)
             credentialHash user) (fixture_passes _) Hh)) (or_introl eq_refl)).
Defined.

Lemma sanctioned_slots_not_read_witness :
  signalsOf oneJurisdiction day1 noSanctions 77
    <> signalsOf oneJurisdiction day1 someSanctions 77 /\
  (forall i : nat, (i < 15 \/ 24 < i)%nat ->
     signal (signalsOf oneJurisdiction day1 noSanctions 77) i
       = signal (signalsOf oneJurisdiction day1 someSanctions 77) i) /\
  mockVerifier mockProof (signalsOf oneJurisdiction day1 noSanctions 77) = true /\
  mockVerifier mockProof (signalsOf oneJurisdiction day1 someSanctions 77) = true /\
  call (worldWith 18 [1234567890]) day1
       (signalsOf oneJurisdiction day1 noSanctions 77) user
    = call (worldWith 18 [1234567890]) day1
        (signalsOf oneJurisdiction day1 someSanctions 77) user.
Proof.
  assert (Hsame : forall i : nat, (i < 15 \/ 24 < i)%nat ->
            signal (signalsOf oneJurisdiction day1 noSanctions 77) i
              = signal (signalsOf oneJurisdiction day1 someSanctions 77) i).
  { intros i Hi.
    do 28 (destruct i as [| i]; [first [reflexivity | exfalso; lia] |]).
    destruct i; reflexivity. }
  split; [discriminate |]. split; [exact Hsame |].
  split; [reflexivity |]. split; [reflexivity |].
  exact (proj1 (sanctioned_slots_not_read mockVerifier accessControl
                  (mkEnv protocol day1) (worldWith 18 [1234567890]) mockProof
                  _ _ credentialHash user) Hsame eq_refl eq_refl).
Defined.

End AccessControlProps.

(** ** Further properties of the circuit *)

Module CircuitExtra.
Import Circuit Signals CircuitProps.

Lemma mod_q_range (a : Z) : 0 <= a mod q < q.
Proof. apply Z.mod_pos_bound, q_pos. Qed.

Lemma Cmp_cases (a b : Z) :
  (b mod q < a mod q /\ api.Cmp a b = 1) \/
  (a mod q = b mod q /\ api.Cmp a b = 0) \/
  (a mod q < b mod q /\ api.Cmp a b = q - 1).
Proof.
  unfold api.Cmp.
  destruct (Z.compare_spec (a mod q) (b mod q)) as [E | E | E]; auto.
Qed.

Lemma Cmp_0_cases (a : Z) :
  (a mod q <> 0 /\ api.Cmp a 0 = 1) \/ (a mod q = 0 /\ api.Cmp a 0 = 0).
Proof.
  pose proof (mod_q_range a) as Ha.
  destruct (Cmp_cases a 0) as [[H E] | [[H E] | [H E]]];
    rewrite Z.mod_0_l in H by (pose proof q_pos; lia).
  - left. split; [lia | exact E].
  - right. split; [exact H | exact E].
  - lia.
Qed.

Lemma IsZero_Sub_eq (a b : Z) : a mod q = b mod q -> api.IsZero (api.Sub a b) = 1.
Proof.
  intros H. unfold api.IsZero, api.Sub.
  rewrite Z.mod_mod by (pose proof q_pos; lia).
  rewrite Zminus_mod, H, Z.sub_diag, Z.mod_0_l by (pose proof q_pos; lia).
  reflexivity.
Qed.

Lemma IsZero_Sub_cases (a b : Z) :
  (a mod q = b mod q /\ api.IsZero (api.Sub a b) = 1) \/
  (a mod q <> b mod q /\ api.IsZero (api.Sub a b) = 0).
Proof.
  destruct (Z.eq_dec (a mod q) (b mod q)) as [E | E].
  - left. split; [exact E | now apply IsZero_Sub_eq].
  - right. split; [exact E | now apply IsZero_Sub_ne].
Qed.

Lemma IsZero_cases (a : Z) :
  (a mod q = 0 /\ api.IsZero a = 1) \/ (a mod q <> 0 /\ api.IsZero a = 0).
Proof.
  unfold api.IsZero. destruct (Z.eqb_spec (a mod q) 0) as [E | E]; auto.
Qed.

Lemma slotMatch_cases (actual : Z) (allowed : list Z) (i : nat) :
  (nth i allowed 0 mod q <> 0 /\ nth i allowed 0 mod q = actual mod q /\
   slotMatch actual allowed i = 1) \/
  ((nth i allowed 0 mod q = 0 \/ nth i allowed 0 mod q <> actual mod q) /\
   slotMatch actual allowed i = 0).
Proof.
  destruct (Z.eq_dec (nth i allowed 0 mod q) 0) as [E0 | E0];
    [right; split; [left; exact E0 | apply slotMatch_zero; left; exact E0] |].
  destruct (Z.eq_dec (nth i allowed 0 mod q) (actual mod q)) as [E | E];
    [| right; split; [right; exact E | apply slotMatch_zero; right; exact E]].
  left. split; [exact E0 |]. split; [exact E |].
  unfold slotMatch; cbv zeta.
  destruct (Cmp_0_cases (nth i allowed 0)) as [[_ ->] | [H _]]; [| contradiction].
  rewrite IsZero_Sub_eq by congruence. reflexivity.
Qed.

(** Adding up bits stays below the modulus, so the field sum is the count. *)
Lemma fold_Add_bits (l : list Z) (acc : Z) :
  Forall (fun x => x = 0 \/ x = 1) l ->
  0 <= acc -> acc + Z.of_nat (length l) < q ->
  acc <= fold_left api.Add l acc <= acc + Z.of_nat (length l) /\
  (fold_left api.Add l acc = acc <-> Forall (fun x => x = 0) l).
Proof.
  intros Hl. revert acc. induction Hl as [| x l Hx Hl IH]; intros acc Hacc Hlt.
  - simpl. split; [lia |]. split; [constructor | reflexivity].
  - simpl fold_left. simpl length in *.
    assert (Hadd : api.Add acc x = acc + x)
      by (unfold api.Add; apply Z.mod_small; lia).
    rewrite Hadd.
    destruct (IH (acc + x) ltac:(lia) ltac:(lia)) as [Hrange Hiff].
    split; [lia |]. split.
    + intros Heq. destruct Hx as [-> | ->].
      * constructor; [reflexivity |]. apply Hiff. lia.
      * lia.
    + intros Hall. inversion Hall as [| ? ? Hx0 Hall']; subst.
      rewrite Z.add_0_r in *. now apply Hiff.
Qed.

Lemma matches_bits (actual : Z) (allowed : list Z) :
  Forall (fun x => x = 0 \/ x = 1) (matches actual allowed).
Proof.
  unfold matches. apply List.Forall_forall. intros x Hx.
  apply in_map_iff in Hx. destruct Hx as (i & <- & _).
  destruct (slotMatch_cases actual allowed i) as [(_ & _ & ->) | (_ & ->)]; auto.
Qed.

Lemma matches_all_zero (actual : Z) (allowed : list Z) :
  Forall (fun x => x = 0) (matches actual allowed) <-> ~ member actual allowed.
Proof.
  unfold matches, member. rewrite List.Forall_forall. split.
  - intros H (i & Hi & Hnz & Heq).
    assert (Hin : In (slotMatch actual allowed i)
                     (map (slotMatch actual allowed) (seq 0 10)))
      by (apply in_map, in_seq; lia).
    specialize (H _ Hin).
    destruct (slotMatch_cases actual allowed i) as [(_ & _ & E) | ([E | E] & _)];
      [rewrite E in H; discriminate | contradiction | contradiction].
  - intros H x Hx. apply in_map_iff in Hx. destruct Hx as (i & <- & Hi).
    apply in_seq in Hi.
    destruct (slotMatch_cases actual allowed i) as [(Hnz & Heq & _) | (_ & E)];
      [| exact E].
    exfalso. apply H. exists i. split; [lia | auto].
Qed.

Lemma member_dec (actual : Z) (allowed : list Z) :
  member actual allowed \/ ~ member actual allowed.
Proof.
  destruct (List.Forall_Exists_dec (fun x => x = 0) (fun x => Z.eq_dec x 0)
              (matches actual allowed)) as [Hall | Hex].
  - right. now apply matches_all_zero.
  - left. apply List.Exists_exists in Hex. destruct Hex as (x & Hx & Hxnz).
    unfold matches in Hx. apply in_map_iff in Hx.
    destruct Hx as (i & <- & Hi). apply in_seq in Hi.
    destruct (slotMatch_cases actual allowed i) as [(H1 & H2 & _) | (_ & E0)];
      [| contradiction].
    exists i. split; [lia | auto].
Qed.

Lemma checkJurisdiction_cases (actual : Z) (allowed : list Z) :
  (member actual allowed /\ checkJurisdiction actual allowed = 1) \/
  (~ member actual allowed /\ checkJurisdiction actual allowed = 0).
Proof.
  pose proof (matches_bits actual allowed) as Hbits.
  assert (Hlen : length (matches actual allowed) = 10%nat)
    by (unfold matches; rewrite length_map, length_seq; reflexivity).
  destruct (fold_Add_bits _ 0 Hbits ltac:(lia)
              ltac:(rewrite Hlen; reflexivity)) as [Hrange Hiff].
  rewrite Hlen in Hrange.
  rewrite matches_all_zero in Hiff.
  unfold checkJurisdiction; cbv zeta.
  set (sum := fold_left api.Add (matches actual allowed) 0) in *.
  assert (Hsmall : sum mod q = sum)
    by (apply Z.mod_small; pose proof q_gt_21; lia).
  destruct (Cmp_0_cases sum) as [[Hnz E] | [Hz E]]; rewrite E.
  - left. split; [| reflexivity]. rewrite Hsmall in Hnz.
    destruct (member_dec actual allowed) as [Hm | Hm]; [exact Hm |].
    exfalso. apply Hnz. now apply Hiff.
  - right. split; [| reflexivity]. rewrite Hsmall in Hz. now apply Hiff.
Qed.

Lemma checkSanctions_cases (actual : Z) (sanctioned : list Z) :
  (~ member actual sanctioned /\ checkSanctions actual sanctioned = 1) \/
  (member actual sanctioned /\ checkSanctions actual sanctioned = 0).
Proof.
  unfold checkSanctions; cbv zeta.
  destruct (checkJurisdiction_cases actual sanctioned) as [[Hm ->] | [Hm ->]].
  - right. split; [exact Hm | vm_compute; reflexivity].
  - left. split; [exact Hm | vm_compute; reflexivity].
Qed.

Lemma checkAccreditation_cases (actual required : Z) :
  ((required mod q = 0 \/ actual mod q = required mod q) /\
   checkAccreditation actual required = 1) \/
  (~ (required mod q = 0 \/ actual mod q = required mod q) /\
   checkAccreditation actual required = 0).
Proof.
  unfold checkAccreditation; cbv zeta.
  destruct (IsZero_cases required) as [[Hr ->] | [Hr ->]].
  - left. split; [left; exact Hr |]. rewrite Mul_0_l. vm_compute; reflexivity.
  - destruct (IsZero_Sub_cases actual required) as [[Hm ->] | [Hm ->]].
    + left. split; [right; exact Hm | vm_compute; reflexivity].
    + right. split; [| vm_compute; reflexivity]. intros [H | H]; contradiction.
Qed.

Lemma hashValid_cases (c : ZKKYC) :
  (CredentialHash c mod q = CredentialHashPublic c mod q /\ hashValid c = 1) \/
  (CredentialHash c mod q <> CredentialHashPublic c mod q /\ hashValid c = 0).
Proof. unfold hashValid; cbv zeta. apply IsZero_Sub_cases. Qed.

(** X1. The membership primitive returns 1 when the actual value equals a
    non-empty slot among the ten, and 0 otherwise. *)
Theorem checkJurisdiction_iff (actual : Z) (allowed : list Z) :
  (checkJurisdiction actual allowed = 1 <-> member actual allowed) /\
  (checkJurisdiction actual allowed = 0 <-> ~ member actual allowed).
Proof.
  destruct (checkJurisdiction_cases actual allowed) as [[Hm ->] | [Hm ->]];
    split; split; intros H; try assumption; try reflexivity;
    first [discriminate H | contradiction].
Qed.

(** X2. The sanctions check is the complement of membership: 1 when the
    actual value equals no non-empty sanctioned slot, 0 when it equals one;
    a list of ten empty slots blocks nobody. *)
Theorem checkSanctions_iff (actual : Z) (sanctioned : list Z) :
  (checkSanctions actual sanctioned = 1 <-> ~ member actual sanctioned) /\
  (checkSanctions actual sanctioned = 0 <-> member actual sanctioned) /\
  checkSanctions actual (repeat 0 10) = 1.
Proof.
  split; [| split].
  - destruct (checkSanctions_cases actual sanctioned) as [[Hm ->] | [Hm ->]];
      split; intros H; try assumption; try reflexivity;
      first [discriminate H | contradiction].
  - destruct (checkSanctions_cases actual sanctioned) as [[Hm ->] | [Hm ->]];
      split; intros H; try assumption; try reflexivity;
      first [discriminate H | contradiction].
  - destruct (checkSanctions_cases actual (repeat 0 10)) as [[_ E] | [Hm _]];
      [exact E |].
    exfalso. destruct Hm as (i & Hi & Hnz & _). apply Hnz.
    do 10 (destruct i as [| i]; [reflexivity |]). lia.
Qed.

(** X3. The accreditation check returns 1 when no accreditation is
    required (requirement 0) or the holder's value equals the requirement,
    and 0 otherwise. *)
Theorem checkAccreditation_iff (actual required : Z) :
  (checkAccreditation actual required = 1 <->
   required mod q = 0 \/ actual mod q = required mod q) /\
  (checkAccreditation actual required = 0 <->
   required mod q <> 0 /\ actual mod q <> required mod q).
Proof.
  destruct (checkAccreditation_cases actual required) as [[H ->] | [H ->]];
    split; split; intros H'; try assumption; try reflexivity;
    first [discriminate H' | tauto].
Qed.

Ltac not_member :=
  let i := fresh "i" in
  let Hi := fresh "Hi" in
  let Hnz := fresh "Hnz" in
  let Heq := fresh "Heq" in
  intros (i & Hi & Hnz & Heq);
  do 10 (destruct i as [| i];
         [vm_compute in Hnz, Heq; first [congruence | discriminate Heq] |]);
  lia.

Ltac member_at k :=
  exists k; split; [lia |]; split; [vm_compute; discriminate | reflexivity].

Lemma checkJurisdiction_iff_witness :
  checkJurisdiction 1111111111 (AllowedJurisdictions validCase) = 1 /\
  checkJurisdiction 666 (AllowedJurisdictions validCase) = 0.
Proof.
  split.
  - apply (proj1 (checkJurisdiction_iff 1111111111 (AllowedJurisdictions validCase))).
    member_at 1%nat.
  - apply (proj2 (checkJurisdiction_iff 666 (AllowedJurisdictions validCase))).
    not_member.
Defined.

Lemma checkSanctions_iff_witness :
  checkSanctions 1234567890 (SanctionedCountries validCase) = 1 /\
  checkSanctions 1122334455 (SanctionedCountries validCase) = 0.
Proof.
  split.
  - apply (proj1 (checkSanctions_iff 1234567890 (SanctionedCountries validCase))).
    not_member.
  - apply (proj1 (proj2 (checkSanctions_iff 1122334455
                           (SanctionedCountries validCase)))).
    member_at 0%nat.
Defined.

Lemma checkAccreditation_iff_witness :
  checkAccreditation 0 0 = 1 /\ checkAccreditation 1 1 = 1 /\
  checkAccreditation 0 1 = 0.
Proof.
  split; [| split].
  - apply (proj1 (checkAccreditation_iff 0 0)). left. reflexivity.
  - apply (proj1 (checkAccreditation_iff 1 1)). right. reflexivity.
  - apply (proj2 (checkAccreditation_iff 0 1)). split; discriminate.
Defined.

Lemma IsValid_one_conditions (c : ZKKYC) :
  IsValid (Define c) = 1 <->
  member (ActualJurisdiction c) (AllowedJurisdictions c) /\
  ~ member (ActualJurisdiction c) (SanctionedCountries c) /\
  CredentialHash c mod q = CredentialHashPublic c mod q /\
  (RequireAccredited c mod q = 0 \/
   ActualAccredited c mod q = RequireAccredited c mod q) /\
  ((MinAge c mod q < ActualAge c mod q /\
    CurrentDate c mod q < ExpiryDate c mod q) \/
   (ActualAge c mod q < MinAge c mod q /\
    ExpiryDate c mod q < CurrentDate c mod q)).
Proof.
  simpl IsValid. unfold accreditationValid, jurisdictionValid, isNotSanctioned.
  destruct (checkJurisdiction_cases (ActualJurisdiction c) (AllowedJurisdictions c))
    as [[Hj ->] | [Hj ->]];
  destruct (checkSanctions_cases (ActualJurisdiction c) (SanctionedCountries c))
    as [[Hs ->] | [Hs ->]];
  destruct (hashValid_cases c) as [[Hh ->] | [Hh ->]];
  destruct (checkAccreditation_cases (ActualAccredited c) (RequireAccredited c))
    as [[Hc ->] | [Hc ->]];
  rewrite ?Mul_0_l, ?Mul_0_r;
  try (split; [intros H; discriminate H | tauto]).
  unfold ageValid, expiryValid.
  destruct (Cmp_cases (ActualAge c) (MinAge c)) as [[Ha ->] | [[Ha ->] | [Ha ->]]];
  destruct (Cmp_cases (ExpiryDate c) (CurrentDate c))
    as [[He ->] | [[He ->] | [He ->]]];
  match goal with |- ?k = 1 <-> _ =>
    let v := eval vm_compute in k in change k with v
  end;
  (split; [intros H; first [discriminate H | tauto]
          | intros H; first [reflexivity | exfalso; intuition lia]]).
Qed.

(** X4. [IsValid] is 1 exactly when the jurisdiction is allowed and not
    sanctioned, the hashes agree, the accreditation check passes, and the
    age and expiry comparisons are both strictly above or both strictly
    below: the two -1 results of an under-age holder with an expired document
    multiply to 1. *)
Theorem IsValid_one_iff (c : ZKKYC) :
  IsValid (Define c) = 1 <->
  member (ActualJurisdiction c) (AllowedJurisdictions c) /\
  ~ member (ActualJurisdiction c) (SanctionedCountries c) /\
  CredentialHash c mod q = CredentialHashPublic c mod q /\
  (RequireAccredited c mod q = 0 \/
   ActualAccredited c mod q = RequireAccredited c mod q) /\
  ((MinAge c mod q < ActualAge c mod q /\
    CurrentDate c mod q < ExpiryDate c mod q) \/
   (ActualAge c mod q < MinAge c mod q /\
    ExpiryDate c mod q < CurrentDate c mod q)).
Proof. exact (IsValid_one_conditions c). Qed.

Lemma IsValid_one_iff_witness :
  IsValid (Define validCase) = 1 /\
  ActualAge (withDates tooYoungCase 1735689600 1740052800)
    < MinAge (withDates tooYoungCase 1735689600 1740052800) /\
  ExpiryDate (withDates tooYoungCase 1735689600 1740052800)
    < CurrentDate (withDates tooYoungCase 1735689600 1740052800) /\
  IsValid (Define (withDates tooYoungCase 1735689600 1740052800)) = 1.
Proof.
  split; [| split; [reflexivity | split; [reflexivity |]]].
  - apply (proj2 (IsValid_one_iff validCase)).
    split; [member_at 0%nat |]. split; [not_member |].
    split; [reflexivity |]. split; [right; reflexivity |].
    left. split; reflexivity.
  - apply (proj2 (IsValid_one_iff (withDates tooYoungCase 1735689600 1740052800))).
    split; [member_at 0%nat |]. split; [not_member |].
    split; [reflexivity |]. split; [right; reflexivity |].
    right. split; reflexivity.
Defined.

Lemma age_wires (c : ZKKYC) :
  (21 < ActualAge c mod q /\ isOver18 c = 1 /\ isOver21 c = 1) \/
  (ActualAge c mod q = 21 /\ isOver18 c = 1 /\ isOver21 c = 0) \/
  (18 < ActualAge c mod q < 21 /\ isOver18 c = 1 /\ isOver21 c = q - 1) \/
  (ActualAge c mod q = 18 /\ isOver18 c = 0 /\ isOver21 c = q - 1) \/
  (ActualAge c mod q < 18 /\ isOver18 c = q - 1 /\ isOver21 c = q - 1).
Proof.
  unfold isOver18, isOver21.
  assert (E18 : 18 mod q = 18) by (vm_compute; reflexivity).
  assert (E21 : 21 mod q = 21) by (vm_compute; reflexivity).
  destruct (Cmp_cases (ActualAge c) 18) as [[H18 ->] | [[H18 ->] | [H18 ->]]];
  destruct (Cmp_cases (ActualAge c) 21) as [[H21 ->] | [[H21 ->] | [H21 ->]]];
  rewrite ?E18, ?E21 in *; lia.
Qed.

(** X5. For a holder with an unexpired document and a nationality that is
    not sanctioned, the flag word depends on the age alone: 15 above 21, 13
    at 21, 11 at 19 and 20, 10 at 18 and 9 below 18; its valid-expiry bit
    (bit 2) is set exactly from age 21 on. *)
Theorem packedFlags_by_age (c : ZKKYC) :
  CurrentDate c mod q < ExpiryDate c mod q ->
  ~ member (ActualJurisdiction c) (SanctionedCountries c) ->
  (21 < ActualAge c mod q -> PackedFlags (Define c) = 15) /\
  (ActualAge c mod q = 21 -> PackedFlags (Define c) = 13) /\
  (18 < ActualAge c mod q < 21 -> PackedFlags (Define c) = 11) /\
  (ActualAge c mod q = 18 -> PackedFlags (Define c) = 10) /\
  (ActualAge c mod q < 18 -> PackedFlags (Define c) = 9) /\
  (Z.testbit (PackedFlags (Define c)) 2 = true <-> 21 <= ActualAge c mod q).
Proof.
  intros He Hs. simpl PackedFlags.
  unfold expiryValid, isNotSanctioned.
  rewrite (Cmp_gt _ _ He).
  destruct (checkSanctions_cases (ActualJurisdiction c) (SanctionedCountries c))
    as [[_ ->] | [Hm _]]; [| contradiction].
  destruct (age_wires c) as [(Ha & -> & ->) | [(Ha & -> & ->) | [(Ha & -> & ->)
    | [(Ha & -> & ->) | (Ha & -> & ->)]]]];
  match goal with |- context [api.Add ?x ?y] =>
    let v := eval vm_compute in (api.Add x y) in change (api.Add x y) with v
  end;
  repeat split; intros; try lia; try reflexivity; try discriminate.
Qed.


Lemma packedFlags_by_age_witness :
  PackedFlags (Define validCase) = 15 /\
  PackedFlags (Define (withAges validCase 21 18)) = 13 /\
  PackedFlags (Define (withAges validCase 20 18)) = 11 /\
  PackedFlags (Define (withAges validCase 18 18)) = 10 /\
  PackedFlags (Define (withAges validCase 17 18)) = 9.
Proof.
  assert (He : forall a : Z,
            CurrentDate (withAges validCase a 18) mod q
              < ExpiryDate (withAges validCase a 18) mod q)
    by (intros a; reflexivity).
  assert (Hs : forall a : Z,
            ~ member (ActualJurisdiction (withAges validCase a 18))
                (SanctionedCountries (withAges validCase a 18)))
    by (intros a; simpl; not_member).
  split; [| split; [| split; [| split]]].
  - apply (proj1 (packedFlags_by_age validCase (He 28) (Hs 28))). reflexivity.
  - apply (proj1 (proj2 (packedFlags_by_age _ (He 21) (Hs 21)))). reflexivity.
  - apply (proj1 (proj2 (proj2 (packedFlags_by_age _ (He 20) (Hs 20))))).
    split; reflexivity.
  - apply (proj1 (proj2 (proj2 (proj2 (packedFlags_by_age _ (He 18) (Hs 18)))))).
    reflexivity.
  - apply (proj1 (proj2 (proj2 (proj2 (proj2
             (packedFlags_by_age _ (He 17) (Hs 17))))))).
    reflexivity.
Defined.

(** X6. The nullifier is the passport number itself: for passport numbers
    below the field modulus [Define] outputs the number unchanged, so equal
    nullifiers mean equal passport numbers. *)
Theorem nullifier_is_passport_number (c1 c2 : ZKKYC) :
  in_field (PassportNumber c1) -> in_field (PassportNumber c2) ->
  Nullifier (Define c1) = PassportNumber c1 /\
  (Nullifier (Define c1) = Nullifier (Define c2) ->
   PassportNumber c1 = PassportNumber c2).
Proof.
  unfold in_field. intros H1 H2. simpl. unfold api.Mul.
  rewrite !Z.mul_1_r, !Z.mod_small by lia. auto.
Qed.

Lemma nullifier_is_passport_number_witness :
  in_field (PassportNumber validCase) /\
  Nullifier (Define validCase) = PassportNumber validCase.
Proof.
  assert (H : in_field (PassportNumber validCase))
    by (split; [discriminate | reflexivity]).
  split; [exact H |].
  exact (proj1 (nullifier_is_passport_number validCase validCase H H)).
Defined.

End CircuitExtra.

(** ** Further properties of the credential registry *)

Module RegistryExtra.
Import Sol CredentialRegistry RegistryProps RegistryInvariants.

Lemma flag_insert `{Countable K} (m : gmap K bool) (k k' : K) (v : bool) :
  flag (<[k := v]> m) k' = if decide (k = k') then v else flag m k'.
Proof. unfold flag. rewrite lookup_insert. now destruct (decide (k = k')). Qed.

Lemma word_insert `{Countable K} (m : gmap K Z) (k k' : K) (v : Z) :
  word (<[k := v]> m) k' = if decide (k = k') then v else word m k'.
Proof. unfold word. rewrite lookup_insert. now destruct (decide (k = k')). Qed.

Section Run.

Variable role : bytes32.

Lemma run_invariant (P : State -> Prop) :
  (forall (st : State) (tx : Env * Call), P st -> P (step role st tx)) ->
  forall (txs : list (Env * Call)) (st : State), P st -> P (run role st txs).
Proof.
  intros Hstep txs. induction txs as [| tx txs IH]; intros st HP; simpl.
  - exact HP.
  - apply IH, Hstep, HP.
Qed.

Lemma step_keeps_revoked (st : State) (tx : Env * Call) (h : bytes32) :
  flag (revokedCredentials st) h = true ->
  flag (revokedCredentials (step role st tx)) h = true.
Proof.
  intros Hr. destruct tx as [env c]. unfold step, exec; simpl.
  destruct c; unfold_calls; split_requires; try exact Hr.
  rewrite flag_insert. now destruct (decide _).
Qed.

Lemma step_keeps_credential (st : State) (tx : Env * Call) (h : bytes32) :
  flag (credentials st) h = true ->
  flag (credentials (step role st tx)) h = true /\
  word (credentialIssuers (step role st tx)) h = word (credentialIssuers st) h.
Proof.
  intros Hc. destruct tx as [env c]. unfold step, exec; simpl.
  destruct c; unfold_calls; split_requires; try (split; [exact Hc | reflexivity]).
  rewrite flag_insert, word_insert.
  destruct (decide (credentialHash = h)) as [-> | Hne]; [| auto].
  rewrite Hc in *. discriminate.
Qed.

Lemma run_keeps_revoked (st : State) (h : bytes32) (txs : list (Env * Call)) :
  flag (revokedCredentials st) h = true ->
  flag (revokedCredentials (run role st txs)) h = true.
Proof.
  intros Hr.
  apply (run_invariant (fun s => flag (revokedCredentials s) h = true));
    [| exact Hr].
  intros s tx. apply step_keeps_revoked.
Qed.

Lemma run_keeps_credential (st : State) (h : bytes32) (txs : list (Env * Call)) :
  flag (credentials st) h = true ->
  flag (credentials (run role st txs)) h = true /\
  word (credentialIssuers (run role st txs)) h = word (credentialIssuers st) h.
Proof.
  intros Hc.
  apply (run_invariant
           (fun s => flag (credentials s) h = true /\
                     word (credentialIssuers s) h = word (credentialIssuers st) h));
    [| split; [exact Hc | reflexivity]].
  intros s tx [Hs Hi]. destruct (step_keeps_credential s tx h Hs) as [H1 H2].
  split; [exact H1 | congruence].
Qed.

(** X7. Revocation is one-way: once a credential hash is marked revoked, it
    stays revoked and invalid after every sequence of registry
    transactions. *)
Theorem revocation_is_permanent (st : State) (h : bytes32)
    (txs : list (Env * Call)) :
  flag (revokedCredentials st) h = true ->
  flag (revokedCredentials (run role st txs)) h = true /\
  isCredentialValid (run role st txs) h = false.
Proof.
  intros Hr.
  pose proof (run_keeps_revoked st h txs Hr) as H.
  split; [exact H |]. unfold isCredentialValid. rewrite H.
  apply andb_false_r.
Qed.

(** X8. A credential hash is registered once: after it exists it keeps
    existing with the same issuer through every sequence of registry
    transactions, and every later [registerCredential] for it reverts. *)
Theorem credential_registered_once (st : State) (h : bytes32)
    (txs : list (Env * Call)) :
  flag (credentials st) h = true ->
  flag (credentials (run role st txs)) h = true /\
  word (credentialIssuers (run role st txs)) h = word (credentialIssuers st) h /\
  (forall (env : Env) (u : address),
     registerCredential env (run role st txs) h u = Revert NotTrustedIssuer \/
     registerCredential env (run role st txs) h u = Revert CredentialAlreadyExists).
Proof.
  intros Hc.
  destruct (run_keeps_credential st h txs Hc) as [H1 H2]. split; [exact H1 |]. split; [exact H2 |].
  intros env u. unfold_calls.
  destruct (flag (trustedIssuers (run role st txs)) (msg_sender env)); simpl;
    [| left; reflexivity].
  rewrite H1. right. reflexivity.
Qed.

Lemma step_keeps_revokedExists (st : State) (tx : Env * Call) :
  revokedExists st -> revokedExists (step role st tx).
Proof.
  intros Hinv h. destruct tx as [env c]. unfold step, exec; simpl.
  destruct c; unfold_calls; split_requires; try apply Hinv.
  - rewrite flag_insert. destruct (decide _); [reflexivity | apply Hinv].
  - rewrite flag_insert. destruct (decide _) as [<- | Hne]; [| apply Hinv].
    intros _. assumption.
Qed.

Lemma constructor_revokedExists (env : Env) : revokedExists (constructor role env).
Proof.
  intros h. unfold constructor, _grantRole, set_roles.
  repeat match goal with
         | |- context [if ?b then _ else _] => destruct b; simpl
         end; auto.
Qed.

(** X9. In every state reached from the constructor a revoked hash exists,
    so [registerCredential] never fails with the reason that the credential
    was revoked: a revoked hash is always rejected as already existing. *)
Theorem credential_was_revoked_unreachable (env0 : Env)
    (txs : list (Env * Call)) (env : Env) (h : bytes32) (u : address) :
  revokedExists (run role (constructor role env0) txs) /\
  registerCredential env (run role (constructor role env0) txs) h u
    <> Revert CredentialWasRevoked.
Proof.
  assert (Hinv : revokedExists (run role (constructor role env0) txs)).
  { apply run_invariant; [apply step_keeps_revokedExists |].
    apply constructor_revokedExists. }
  split; [exact Hinv |]. specialize (Hinv h). unfold_calls.
  destruct (flag (trustedIssuers _) (msg_sender env)); simpl; [| discriminate].
  destruct (flag (credentials _) h) eqn:Hc; simpl; [discriminate |].
  destruct (flag (revokedCredentials _) h) eqn:Hr; simpl; [| discriminate].
  discriminate (Hinv eq_refl).
Qed.

(** X10. A valid credential becomes invalid only through
    [revokeCredential] on that hash, sent by the credential's issuer or by a
    holder of the default admin role; no other transaction invalidates it. *)
Theorem only_issuer_or_admin_invalidates (st : State) (env : Env) (c : Call)
    (h : bytes32) :
  isCredentialValid st h = true ->
  isCredentialValid (step role st (env, c)) h = false ->
  c = RevokeCredential h /\
  (word (credentialIssuers st) h = msg_sender env \/
   hasRole st DEFAULT_ADMIN_ROLE (msg_sender env) = true).
Proof.
  intros Hv. pose proof Hv as Hv'. apply isCredentialValid_true in Hv as [Hc Hr].
  unfold step, exec; simpl.
  destruct c; unfold_calls; split_requires; intros Hinv;
    unfold isCredentialValid in Hinv; simpl in Hinv;
    try (rewrite Hc, Hr in Hinv; discriminate Hinv).
  - rewrite flag_insert, Hr, Hc in Hinv. destruct (decide _); discriminate Hinv.
  - rewrite flag_insert, Hc in Hinv.
    destruct (decide (credentialHash = h)) as [-> | Hne];
      [| rewrite Hr in Hinv; discriminate Hinv].
    split; [reflexivity |].
    match goal with H : (_ || _) = true |- _ =>
      apply orb_true_iff in H as [H | H] end;
      [left; now apply Z.eqb_eq | right; assumption].
Qed.

(** X11. A credential hash comes into existence only through
    [registerCredential] for that hash sent by a trusted issuer, who is
    recorded as its issuer. *)
Theorem only_trusted_issuer_creates (st : State) (env : Env) (c : Call)
    (h : bytes32) :
  flag (credentials st) h = false ->
  flag (credentials (step role st (env, c))) h = true ->
  (exists u : address, c = RegisterCredential h u) /\
  flag (trustedIssuers st) (msg_sender env) = true /\
  word (credentialIssuers (step role st (env, c))) h = msg_sender env /\
  isCredentialValid (step role st (env, c)) h
    = negb (flag (revokedCredentials st) h).
Proof.
  intros Hc. unfold step, exec, isCredentialValid; simpl.
  destruct c; unfold_calls; split_requires; intros Hnew;
    try (rewrite Hc in Hnew; discriminate Hnew).
  rewrite flag_insert in *. rewrite word_insert.
  destruct (decide (credentialHash = h)) as [-> | Hne];
    [| rewrite Hc in Hnew; discriminate Hnew].
  split; [eexists; reflexivity |]. split; [assumption |]. split; reflexivity.
Qed.

(** X12. Removing an issuer changes no credential's validity: what the
    issuer registered stays valid, the removed issuer can register nothing
    more, and it can still revoke the credentials it issued. *)
Theorem removed_issuer_keeps_credentials (env : Env) (st st' : State)
    (issuer : address) (evs : list Event) :
  removeIssuer role env st issuer = Ok (st', evs) ->
  (forall h : bytes32, isCredentialValid st' h = isCredentialValid st h) /\
  (forall (env' : Env) (h : bytes32) (u : address),
     msg_sender env' = issuer ->
     registerCredential env' st' h u = Revert NotTrustedIssuer) /\
  (forall (env' : Env) (h : bytes32),
     msg_sender env' = issuer ->
     word (credentialIssuers st) h = issuer ->
     flag (credentials st) h = true ->
     exists (st'' : State) (evs' : list Event),
       revokeCredential env' st' h = Ok (st'', evs') /\
       isCredentialValid st'' h = false).
Proof.
  unfold_calls.
  destruct (hasRole st role (msg_sender env)); simpl; [| discriminate].
  destruct (flag (trustedIssuers st) issuer); simpl; [| discriminate].
  intros [= <- _]. simpl. split; [reflexivity |]. split.
  - intros env' h u ->. rewrite flag_insert.
    destruct (decide (issuer = issuer)); [reflexivity | contradiction].
  - intros env' h Hs Hi Hc. rewrite Hc, Hi, Hs, Z.eqb_refl. simpl.
    eexists _, _. split; [reflexivity |].
    unfold isCredentialValid; simpl. rewrite flag_insert.
    destruct (decide (h = h)); [apply andb_false_r | contradiction].
Qed.

(** X13. Removing an issuer clears its trusted flag but keeps its recorded
    name; an issuer manager can add it again, and the new name replaces the
    old one. *)
Theorem issuer_remove_then_readd (env1 env2 env3 : Env) (st st1 st2 : State)
    (issuer : address) (name1 name2 : string) (evs1 evs2 : list Event) :
  addIssuer role env1 st issuer name1 = Ok (st1, evs1) ->
  removeIssuer role env2 st1 issuer = Ok (st2, evs2) ->
  flag (trustedIssuers st2) issuer = false /\
  issuerNames st2 !! issuer = Some name1 /\
  (hasRole st2 role (msg_sender env3) = true ->
   exists st3 : State,
     addIssuer role env3 st2 issuer name2 = Ok (st3, [IssuerAdded issuer name2]) /\
     flag (trustedIssuers st3) issuer = true /\
     issuerNames st3 !! issuer = Some name2).
Proof.
  unfold_calls.
  destruct (hasRole st role (msg_sender env1)); simpl; [| discriminate].
  destruct (negb (flag (trustedIssuers st) issuer)); simpl; [| discriminate].
  intros [= <- _]. simpl.
  destruct (hasRole _ role (msg_sender env2)); simpl; [| discriminate].
  destruct (flag _ issuer); simpl; [| discriminate].
  intros [= <- _]. simpl.
  assert (Hf : flag (<[issuer := false]> (<[issuer := true]> (trustedIssuers st)))
                 issuer = false).
  { rewrite flag_insert. destruct (decide (issuer = issuer)); [reflexivity | contradiction]. }
  split; [exact Hf |]. split; [apply lookup_insert_eq |].
  unfold hasRole; simpl. intros ->. simpl. rewrite Hf. simpl.
  eexists. split; [reflexivity |]. simpl. split.
  - rewrite flag_insert. destruct (decide (issuer = issuer)); [reflexivity | contradiction].
  - apply lookup_insert_eq.
Qed.

(** X14. Registering a nullifier for the zero address binds nothing: the
    nullifier stays unowned, and the next registration with any user succeeds
    and takes it. *)
Theorem zero_address_binding_is_no_binding (env : Env) (st st' : State)
    (n h : bytes32) (evs : list Event) :
  word (nullifierOwners st) n = 0 ->
  registerNullifier env st n h 0 = Ok (st', evs) ->
  word (nullifierOwners st') n = 0 /\
  (forall (env' : Env) (u : address),
     exists st'' : State,
       registerNullifier env' st' n h u = Ok (st'', [NullifierRegistered n h u]) /\
       word (nullifierOwners st'') n = u).
Proof.
  intros Ho Hreg.
  assert (Hv : isCredentialValid st h = true).
  { unfold isCredentialValid. revert Hreg. unfold_calls.
    destruct (flag (credentials st) h); simpl; [| discriminate].
    destruct (flag (revokedCredentials st) h); simpl; [discriminate | reflexivity]. }
  rewrite (registerNullifier_fresh env st n h 0 Hv Ho) in Hreg.
  injection Hreg as <- _.
  set (st1 := mkState (credentials st) (credentialIssuers st)
                (revokedCredentials st) (trustedIssuers st) (issuerNames st)
                (<[n := 0]> (nullifierOwners st)) (userToCredential st)
                (roles st)).
  assert (Hv1 : isCredentialValid st1 h = true) by exact Hv.
  assert (Hz : word (nullifierOwners st1) n = 0).
  { subst st1. cbn [nullifierOwners]. rewrite word_insert.
    destruct (decide (n = n)); [reflexivity | contradiction]. }
  split; [exact Hz |]. intros env' u.
  eexists. split; [exact (registerNullifier_fresh env' st1 n h u Hv1 Hz) |].
  cbn [nullifierOwners]. rewrite word_insert.
  destruct (decide (n = n)); [reflexivity | contradiction].
Qed.

End Run.

Import Fixture Scenarios.

Lemma revocation_is_permanent_witness :
  flag (revokedCredentials registryRevoked) credentialHash = true /\
  isCredentialValid (run managerRole registryRevoked laterCalls) credentialHash
    = false.
Proof.
  assert (H : flag (revokedCredentials registryRevoked) credentialHash = true)
    by (vm_compute; reflexivity).
  split; [exact H |].
  exact (proj2 (revocation_is_permanent managerRole registryRevoked
                  credentialHash laterCalls H)).
Defined.

Lemma credential_registered_once_witness :
  flag (credentials registry) credentialHash = true /\
  flag (credentials (run managerRole registry laterCalls)) credentialHash = true /\
  word (credentialIssuers (run managerRole registry laterCalls)) credentialHash
    = issuer.
Proof.
  assert (H : flag (credentials registry) credentialHash = true)
    by (vm_compute; reflexivity).
  destruct (credential_registered_once managerRole registry credentialHash
              laterCalls H) as (H1 & H2 & _).
  split; [exact H |]. split; [exact H1 |].
  rewrite H2. vm_compute; reflexivity.
Defined.

Lemma credential_was_revoked_unreachable_witness :
  registerCredential (mkEnv issuer day1)
    (run managerRole (constructor managerRole (mkEnv deployer 1))
       [(mkEnv deployer 1, AddIssuer issuer "Test KYC Provider");
        (mkEnv issuer day1, RegisterCredential credentialHash user);
        (mkEnv issuer day1, RevokeCredential credentialHash)])
    credentialHash user
  <> Revert CredentialWasRevoked.
Proof.
  exact (proj2 (credential_was_revoked_unreachable managerRole
                  (mkEnv deployer 1)
                  [(mkEnv deployer 1, AddIssuer issuer "Test KYC Provider");
                   (mkEnv issuer day1, RegisterCredential credentialHash user);
                   (mkEnv issuer day1, RevokeCredential credentialHash)]
                  (mkEnv issuer day1) credentialHash user)).
Defined.

Lemma only_issuer_or_admin_invalidates_witness :
  isCredentialValid registry credentialHash = true /\
  isCredentialValid
    (step managerRole registry (mkEnv issuer day1, RevokeCredential credentialHash))
    credentialHash = false /\
  (word (credentialIssuers registry) credentialHash = issuer \/
   hasRole registry DEFAULT_ADMIN_ROLE issuer = true).
Proof.
  assert (H1 : isCredentialValid registry credentialHash = true)
    by (vm_compute; reflexivity).
  assert (H2 : isCredentialValid
                 (step managerRole registry
                    (mkEnv issuer day1, RevokeCredential credentialHash))
                 credentialHash = false)
    by (vm_compute; reflexivity).
  split; [exact H1 |]. split; [exact H2 |].
  exact (proj2 (only_issuer_or_admin_invalidates managerRole registry
                  (mkEnv issuer day1) (RevokeCredential credentialHash)
                  credentialHash H1 H2)).
Defined.

Lemma only_trusted_issuer_creates_witness :
  flag (credentials registryBeforeCredential) credentialHash = false /\
  flag (credentials
          (step managerRole registryBeforeCredential
             (mkEnv issuer day1, RegisterCredential credentialHash user)))
       credentialHash = true /\
  flag (trustedIssuers registryBeforeCredential) issuer = true.
Proof.
  assert (H1 : flag (credentials registryBeforeCredential) credentialHash = false)
    by (vm_compute; reflexivity).
  assert (H2 : flag (credentials
                       (step managerRole registryBeforeCredential
                          (mkEnv issuer day1,
                           RegisterCredential credentialHash user)))
                    credentialHash = true)
    by (vm_compute; reflexivity).
  split; [exact H1 |]. split; [exact H2 |].
  exact (proj1 (proj2 (only_trusted_issuer_creates managerRole
                         registryBeforeCredential (mkEnv issuer day1)
                         (RegisterCredential credentialHash user)
                         credentialHash H1 H2))).
Defined.

Lemma removed_issuer_keeps_credentials_witness :
  removeIssuer managerRole (mkEnv deployer day1) registry issuer
    = Ok (registryIssuerRemoved, [IssuerRemoved issuer]) /\
  isCredentialValid registryIssuerRemoved credentialHash = true /\
  registerCredential (mkEnv issuer day1) registryIssuerRemoved 555 user
    = Revert NotTrustedIssuer /\
  exists (st'' : State) (evs' : list Event),
    revokeCredential (mkEnv issuer day1) registryIssuerRemoved credentialHash
      = Ok (st'', evs') /\
    isCredentialValid st'' credentialHash = false.
Proof.
  assert (H : removeIssuer managerRole (mkEnv deployer day1) registry issuer
              = Ok (registryIssuerRemoved, [IssuerRemoved issuer]))
    by (vm_compute; reflexivity).
  destruct (removed_issuer_keeps_credentials managerRole _ _ _ _ _ H)
    as (Hsame & Hreg & Hrev).
  split; [exact H |]. split; [| split].
  - rewrite Hsame. vm_compute; reflexivity.
  - apply Hreg. reflexivity.
  - apply Hrev; [reflexivity | vm_compute; reflexivity | vm_compute; reflexivity].
Defined.

Lemma issuer_remove_then_readd_witness :
  addIssuer managerRole (mkEnv deployer day1) registry otherUser "Second issuer"
    = Ok (registryOtherAdded, [IssuerAdded otherUser "Second issuer"]) /\
  removeIssuer managerRole (mkEnv deployer day1) registryOtherAdded otherUser
    = Ok (registryOtherRemoved, [IssuerRemoved otherUser]) /\
  flag (trustedIssuers registryOtherRemoved) otherUser = false /\
  issuerNames registryOtherRemoved !! otherUser = Some "Second issuer"%string /\
  exists st3 : State,
    addIssuer managerRole (mkEnv deployer day1) registryOtherRemoved otherUser
      "Renamed issuer"
      = Ok (st3, [IssuerAdded otherUser "Renamed issuer"]) /\
    flag (trustedIssuers st3) otherUser = true /\
    issuerNames st3 !! otherUser = Some "Renamed issuer"%string.
Proof.
  assert (H1 : addIssuer managerRole (mkEnv deployer day1) registry otherUser
                 "Second issuer"
               = Ok (registryOtherAdded, [IssuerAdded otherUser "Second issuer"]))
    by (vm_compute; reflexivity).
  assert (H2 : removeIssuer managerRole (mkEnv deployer day1) registryOtherAdded
                 otherUser
               = Ok (registryOtherRemoved, [IssuerRemoved otherUser]))
    by (vm_compute; reflexivity).
  destruct (issuer_remove_then_readd managerRole _ _ (mkEnv deployer day1)
              _ _ _ _ _ "Renamed issuer" _ _ H1 H2) as (Hf & Hn & Hadd).
  split; [exact H1 |]. split; [exact H2 |]. split; [exact Hf |].
  split; [exact Hn |]. apply Hadd. vm_compute; reflexivity.
Defined.

Lemma zero_address_binding_is_no_binding_witness :
  word (nullifierOwners registry) 88 = 0 /\
  registerNullifier (mkEnv stranger day1) registry 88 credentialHash 0
    = Ok (registryZeroBound, [NullifierRegistered 88 credentialHash 0]) /\
  word (nullifierOwners registryZeroBound) 88 = 0 /\
  exists st'' : State,
    registerNullifier (mkEnv stranger day1) registryZeroBound 88 credentialHash
      otherUser
      = Ok (st'', [NullifierRegistered 88 credentialHash otherUser]) /\
    word (nullifierOwners st'') 88 = otherUser.
Proof.
  assert (H0 : word (nullifierOwners registry) 88 = 0)
    by (vm_compute; reflexivity).
  assert (H1 : registerNullifier (mkEnv stranger day1) registry 88 credentialHash 0
               = Ok (registryZeroBound, [NullifierRegistered 88 credentialHash 0]))
    by (vm_compute; reflexivity).
  destruct (zero_address_binding_is_no_binding _ _ _ _ _ _ H0 H1) as (Hz & Hnext).
  split; [exact H0 |]. split; [exact H1 |]. split; [exact Hz |].
  apply Hnext.
Defined.

End RegistryExtra.

(** ** Properties of transaction sequences on both contracts *)

Module LedgerProps.
Import Sol ProtocolAccessControl Ledger LedgerInvariants.
Import RegistryProps RegistryExtra AccessControlProps.

Section Deployed.

Variable verifyProof : ZKProof -> list uint256 -> bool.
Variable this : address.
Variable role : bytes32.

Local Abbreviation verifyAndGrantAccess :=
  (ProtocolAccessControl.verifyAndGrantAccess verifyProof this).
Local Abbreviation passesAllButFreshness :=
  (ProtocolAccessControl.passesAllButFreshness verifyProof).
Local Abbreviation step := (Ledger.step verifyProof this role).
Local Abbreviation run := (Ledger.run verifyProof this role).

Lemma ledger_run_invariant (P : World -> Prop) :
  (forall (w : World) (tx : Env * Call), P w -> P (step w tx)) ->
  forall (txs : list (Env * Call)) (w : World), P w -> P (run w txs).
Proof.
  intros Hstep txs. induction txs as [| tx txs IH]; intros w HP; simpl.
  - exact HP.
  - apply IH, Hstep, HP.
Qed.

(** What a transaction does to the registry is a registry transaction. *)
Lemma step_registry (w : World) (tx : Env * Call) :
  registry (step w tx) = registry w \/
  exists rtx : Env * CredentialRegistry.Call,
    registry (step w tx) = CredentialRegistry.step role (registry w) rtx.
Proof.
  destruct tx as [env c]. unfold Ledger.step, exec; simpl.
  destruct c as [m a r | prf sigs h u | u | c].
  - unfold setRequirements, require, mbind, result_bind.
    destruct (_ <=? _)%nat; simpl; left; reflexivity.
  - destruct (verifyAndGrantAccess env w prf sigs h u) as [[w' evs] | e] eqn:E;
      simpl; [| left; reflexivity].
    apply success_passes in E as (_ & regEvents & Hreg).
    right. exists (mkEnv this (block_timestamp env),
                   CredentialRegistry.RegisterNullifier (signal sigs 26) h u).
    unfold CredentialRegistry.step, CredentialRegistry.exec; simpl.
    now rewrite Hreg.
  - unfold revokeAccess, require, mbind, result_bind.
    destruct (flag _ _); simpl; left; reflexivity.
  - right. exists (env, c). unfold CredentialRegistry.step.
    unfold mbind, result_bind.
    destruct (CredentialRegistry.exec role (registry w) (env, c))
      as [[reg' evs] | e]; reflexivity.
Qed.

Lemma run_registry (txs : list (Env * Call)) (w : World) :
  exists rtxs : list (Env * CredentialRegistry.Call),
    registry (run w txs) = CredentialRegistry.run role (registry w) rtxs.
Proof.
  revert w. induction txs as [| tx txs IH]; intros w; simpl.
  - exists []. reflexivity.
  - destruct (IH (step w tx)) as (rtxs & Hr). rewrite Hr.
    destruct (step_registry w tx) as [-> | (rtx & ->)].
    + exists rtxs. reflexivity.
    + exists (rtx :: rtxs). reflexivity.
Qed.

(** X15. A nullifier bound to a wallet keeps its owner through every
    sequence of transactions on the two contracts, calls of
    [verifyAndGrantAccess] by any protocol included. *)
Theorem binding_survives_every_transaction (w : World) (n : bytes32)
    (u : address) (txs : list (Env * Call)) :
  word (CredentialRegistry.nullifierOwners (registry w)) n = u -> u <> 0 ->
  word (CredentialRegistry.nullifierOwners (registry (run w txs))) n = u.
Proof.
  intros Ho Hu. destruct (run_registry txs w) as (rtxs & ->).
  now apply run_keeps_owner.
Qed.

(** X16. Once a credential is revoked no later call of
    [verifyAndGrantAccess] with it succeeds, whatever happens in between and
    whatever the proof is: the call reverts for the missing policy or for the
    invalid credential, and changes nothing. *)
Theorem revoked_credential_never_grants (w : World) (h : bytes32)
    (txs : list (Env * Call)) (env : Env) (prf : ZKProof)
    (sigs : list uint256) (user : address) :
  flag (CredentialRegistry.revokedCredentials (registry w)) h = true ->
  (verifyAndGrantAccess env (run w txs) prf sigs h user
     = Revert RequirementsNotSet \/
   verifyAndGrantAccess env (run w txs) prf sigs h user
     = Revert InvalidOrRevokedCredential) /\
  step (run w txs) (env, VerifyAndGrantAccess prf sigs h user) = run w txs.
Proof.
  intros Hr.
  assert (Hinv : CredentialRegistry.isCredentialValid (registry (run w txs)) h
                 = false).
  { destruct (run_registry txs w) as (rtxs & ->).
    unfold CredentialRegistry.isCredentialValid.
    rewrite (run_keeps_revoked role _ h rtxs Hr). apply andb_false_r. }
  assert (Hcall : verifyAndGrantAccess env (run w txs) prf sigs h user
                    = Revert RequirementsNotSet \/
                  verifyAndGrantAccess env (run w txs) prf sigs h user
                    = Revert InvalidOrRevokedCredential).
  { unfold ProtocolAccessControl.verifyAndGrantAccess; cbv zeta.
    destruct (isSet (requirementsOf (run w txs) (msg_sender env)));
      [right | left; reflexivity].
    rewrite bind_require_true by reflexivity.
    rewrite bind_require_false by exact Hinv. reflexivity. }
  split; [exact Hcall |].
  unfold Ledger.step, exec; simpl.
  destruct Hcall as [-> | ->]; reflexivity.
Qed.

Lemma requirementsOf_insert (w : World) (reqs : gmap address Requirements)
    (acc : gmap (address * address) bool) (cred : gmap (address * address) bytes32)
    (reg : CredentialRegistry.State) (p p' : address) (r : Requirements) :
  requirementsOf (mkWorld (mkState (<[p := r]> reqs) acc cred) reg) p'
  = if decide (p = p') then r
    else requirementsOf (mkWorld (mkState reqs acc cred) reg) p'.
Proof.
  unfold requirementsOf; simpl. rewrite lookup_insert.
  now destruct (decide (p = p')).
Qed.

(** The access control state after a transaction, case by case. *)
Lemma step_pac (w : World) (env : Env) (c : Call) :
  pac (step w (env, c)) = pac w \/
  (exists (m : uint256) (a : list uint256) (r : bool),
     c = SetRequirements m a r /\
     pac (step w (env, c))
       = mkState (<[msg_sender env := mkRequirements m a r true]>
                    (protocolRequirements (pac w)))
                 (hasAccess (pac w)) (userCredentials (pac w))) \/
  (exists (prf : ZKProof) (sigs : list uint256) (h : bytes32) (u : address),
     c = VerifyAndGrantAccess prf sigs h u /\
     CredentialRegistry.isCredentialValid (registry w) h = true /\
     pac (step w (env, c))
       = mkState (protocolRequirements (pac w))
                 (<[(msg_sender env, u) := true]> (hasAccess (pac w)))
                 (<[(msg_sender env, u) := h]> (userCredentials (pac w)))) \/
  (exists u : address,
     c = RevokeAccess u /\
     pac (step w (env, c))
       = mkState (protocolRequirements (pac w))
                 (<[(msg_sender env, u) := false]> (hasAccess (pac w)))
                 (userCredentials (pac w))).
Proof.
  unfold Ledger.step, exec; simpl.
  destruct c as [m a r | prf sigs h u | u | c].
  - unfold setRequirements, require, mbind, result_bind.
    destruct (_ <=? _)%nat; simpl; [| left; reflexivity].
    right; left. eauto.
  - destruct (verifyAndGrantAccess env w prf sigs h u) as [[w' evs] | e] eqn:E;
      simpl; [| left; reflexivity].
    pose proof (success_passes _ _ _ _ _ _ _ _ _ _ E) as [Hpass _].
    rewrite (reach_freshness _ _ _ _ _ _ _ _ Hpass) in E.
    unfold require, checked_sub, mbind, result_bind in E.
    destruct (_ <=? _); [| discriminate E].
    destruct (_ <=? _); [| discriminate E].
    destruct (_ <=? _); [| discriminate E].
    injection E as <- _. simpl.
    do 2 right; left. exists prf, sigs, h, u.
    split; [reflexivity |]. split; [apply Hpass | reflexivity].
  - unfold revokeAccess, require, mbind, result_bind.
    destruct (flag _ _); simpl; [| left; reflexivity].
    do 3 right. eauto.
  - unfold mbind, result_bind.
    destruct (CredentialRegistry.exec role (registry w) (env, c))
      as [[reg' evs] | e]; left; reflexivity.
Qed.

Lemma step_scoped (w : World) (tx : Env * Call) (protocol user : address) :
  msg_sender (fst tx) <> protocol ->
  requirementsOf (step w tx) protocol = requirementsOf w protocol /\
  flag (hasAccess (pac (step w tx))) (protocol, user)
    = flag (hasAccess (pac w)) (protocol, user) /\
  word (userCredentials (pac (step w tx))) (protocol, user)
    = word (userCredentials (pac w)) (protocol, user).
Proof.
  destruct tx as [env c]. simpl. intros Hne.
  unfold requirementsOf.
  destruct (step_pac w env c)
    as [-> | [(m & a & r & _ & ->) | [(prf & sigs & h & u & _ & _ & ->)
       | (u & _ & ->)]]]; simpl.
  - auto.
  - rewrite lookup_insert_ne by exact Hne. auto.
  - rewrite flag_insert, word_insert.
    destruct (decide _) as [E | _]; [inversion E; contradiction | auto].
  - rewrite flag_insert.
    destruct (decide _) as [E | _]; [inversion E; contradiction | auto].
Qed.

(** X17. A protocol's policy, its grants and the credentials recorded
    for them change only through that protocol's own transactions:
    transactions sent by other accounts leave them as they are. *)
Theorem access_is_protocol_scoped (w : World) (txs : list (Env * Call))
    (protocol user : address) :
  Forall (fun tx => msg_sender (fst tx) <> protocol) txs ->
  requirementsOf (run w txs) protocol = requirementsOf w protocol /\
  flag (hasAccess (pac (run w txs))) (protocol, user)
    = flag (hasAccess (pac w)) (protocol, user) /\
  word (userCredentials (pac (run w txs))) (protocol, user)
    = word (userCredentials (pac w)) (protocol, user).
Proof.
  intros Hall. revert w. induction Hall as [| tx txs Htx _ IH]; intros w; simpl.
  - auto.
  - destruct (IH (step w tx)) as (H1 & H2 & H3).
    destruct (step_scoped w tx protocol user Htx) as (S1 & S2 & S3).
    repeat split; congruence.
Qed.

(** X18. A policy, once set, stays set: no transaction clears the
    [isSet] mark of a protocol. *)
Theorem policy_stays_set (w : World) (txs : list (Env * Call))
    (protocol : address) :
  isSet (requirementsOf w protocol) = true ->
  isSet (requirementsOf (run w txs) protocol) = true.
Proof.
  apply (ledger_run_invariant (fun w => isSet (requirementsOf w protocol) = true)).
  clear w. intros w [env c] Hset. unfold requirementsOf in *.
  destruct (step_pac w env c)
    as [-> | [(m & a & r & _ & ->) | [(prf & sigs & h & u & _ & _ & ->)
       | (u & _ & ->)]]]; simpl; try exact Hset.
  rewrite lookup_insert. destruct (decide _); [reflexivity | exact Hset].
Qed.

Lemma step_keeps_registered (w : World) (tx : Env * Call) (h : bytes32) :
  flag (CredentialRegistry.credentials (registry w)) h = true ->
  flag (CredentialRegistry.credentials (registry (step w tx))) h = true.
Proof.
  intros Hc. destruct (step_registry w tx) as [-> | (rtx & ->)]; [exact Hc |].
  now apply step_keeps_credential.
Qed.

Lemma step_keeps_grantsHaveCredentials (w : World) (tx : Env * Call) :
  grantsHaveCredentials w -> grantsHaveCredentials (step w tx).
Proof.
  intros Hinv p u. destruct tx as [env c].
  destruct (step_pac w env c)
    as [E | [(m & a & r & _ & E) | [(prf & sigs & h & u' & _ & Hv & E)
       | (u' & _ & E)]]]; rewrite E; simpl.
  - intros H. apply step_keeps_registered, Hinv, H.
  - intros H. apply step_keeps_registered, Hinv, H.
  - rewrite flag_insert, word_insert.
    destruct (decide _) as [_ | _].
    + intros _. apply step_keeps_registered.
      now apply isCredentialValid_true in Hv as [Hc _].
    + intros H. apply step_keeps_registered, Hinv, H.
  - rewrite flag_insert. destruct (decide _); [discriminate |].
    intros H. apply step_keeps_registered, Hinv, H.
Qed.

(** X19. In every world reached from the deployment, a granted access
    records a credential hash that exists in the registry. *)
Theorem granted_access_has_credential (reg : CredentialRegistry.State)
    (txs : list (Env * Call)) (protocol user : address) :
  flag (hasAccess (pac (run (deployed reg) txs))) (protocol, user) = true ->
  flag (CredentialRegistry.credentials (registry (run (deployed reg) txs)))
       (word (userCredentials (pac (run (deployed reg) txs))) (protocol, user))
    = true.
Proof.
  revert protocol user.
  apply (ledger_run_invariant grantsHaveCredentials);
    [apply step_keeps_grantsHaveCredentials |].
  intros p u. unfold deployed, flag; simpl. rewrite lookup_empty. discriminate.
Qed.

(** What a successful call writes. *)
Lemma grant_effect (env : Env) (w w' : World) (prf : ZKProof)
    (sigs : list uint256) (h : bytes32) (u : address) (evs : list Event) :
  verifyAndGrantAccess env w prf sigs h u = Ok (w', evs) ->
  pac w' = mkState (protocolRequirements (pac w))
             (<[(msg_sender env, u) := true]> (hasAccess (pac w)))
             (<[(msg_sender env, u) := h]> (userCredentials (pac w))) /\
  CredentialRegistry.registerNullifier (mkEnv this (block_timestamp env))
    (registry w) (signal sigs 26) h u
    = Ok (registry w', [NullifierRegistered (signal sigs 26) h u]) /\
  evs = [NullifierRegistered (signal sigs 26) h u;
         AccessGranted u (msg_sender env) h (block_timestamp env)].
Proof.
  intros E.
  pose proof (success_passes _ _ _ _ _ _ _ _ _ _ E) as [Hpass (regEvents & Hreg)].
  pose proof Hpass as Hpass'.
  destruct Hpass' as ((_ & Hcred & _) & _ & _ & _ & _ & _ & _ & _ & _ & Hnull).
  rewrite (reach_freshness _ _ _ _ _ _ _ _ Hpass) in E.
  unfold require, checked_sub, mbind, result_bind in E.
  destruct (_ <=? _); [| discriminate E].
  destruct (_ <=? _); [| discriminate E].
  destruct (_ <=? _); [| discriminate E].
  injection E as <- <-. simpl. split; [reflexivity |]. split; [| reflexivity].
  destruct (Z.eqb_spec (word (CredentialRegistry.nullifierOwners (registry w))
                          (signal sigs 26)) 0) as [E0 | E0].
  - now apply registerNullifier_fresh.
  - destruct Hnull as [Hn | Hn]; [contradiction |].
    apply registerNullifier_same_owner; [exact Hcred | exact Hn | congruence].
Qed.

Lemma registerNullifier_keeps_validity (env : Env)
    (st st' : CredentialRegistry.State) (n h : bytes32) (u : address)
    (evs : list Event) :
  CredentialRegistry.registerNullifier env st n h u = Ok (st', evs) ->
  CredentialRegistry.credentials st' = CredentialRegistry.credentials st /\
  CredentialRegistry.revokedCredentials st'
    = CredentialRegistry.revokedCredentials st.
Proof.
  unfold CredentialRegistry.registerNullifier, require, mbind, result_bind.
  destruct (flag _ h); simpl; [| discriminate].
  destruct (flag _ h); simpl; [discriminate |].
  destruct (_ =? 0); simpl.
  - intros [= <- _]. auto.
  - destruct (_ =? u); simpl; [| discriminate]. intros [= <- _]. auto.
Qed.

Lemma passes_transfer (env : Env) (w w' : World) (prf : ZKProof)
    (sigs : list uint256) (h : bytes32) (u : address) :
  passesAllButFreshness env w prf sigs h u ->
  requirementsOf w' (msg_sender env) = requirementsOf w (msg_sender env) ->
  CredentialRegistry.isCredentialValid (registry w') h = true ->
  (word (CredentialRegistry.nullifierOwners (registry w')) (signal sigs 26) = 0 \/
   word (CredentialRegistry.nullifierOwners (registry w')) (signal sigs 26) = u) ->
  passesAllButFreshness env w' prf sigs h u.
Proof.
  unfold ProtocolAccessControl.passesAllButFreshness,
    ProtocolAccessControl.passesUpToAge.
  intros Hp Hreq Hv Hn. rewrite Hreq. tauto.
Qed.

Lemma passes_succeeds (env : Env) (w : World) (prf : ZKProof)
    (sigs : list uint256) (h : bytes32) (u : address) :
  passesAllButFreshness env w prf sigs h u ->
  hours1 <= block_timestamp env ->
  block_timestamp env - hours1 <= signal sigs 14 <= block_timestamp env ->
  exists (w' : World) (evs : list Event),
    verifyAndGrantAccess env w prf sigs h u = Ok (w', evs).
Proof.
  intros Hpre Hh [Hlo Hhi]. rewrite (reach_freshness _ _ _ _ _ _ _ _ Hpre).
  rewrite bind_require_true by now apply Z.leb_le.
  unfold checked_sub. rewrite (proj2 (Z.leb_le _ _) Hh).
  change (mbind ?f (Ok ?a)) with (f a); cbv beta.
  rewrite bind_require_true by now apply Z.leb_le.
  eauto.
Qed.

(** After a grant, a call with the same signals, credential and user that
    passed its checks before still passes them, whoever the protocol is. *)
Lemma passes_after_grant (env env2 : Env) (w w' : World) (prf prf2 : ZKProof)
    (sigs : list uint256) (h : bytes32) (u : address) (evs : list Event) :
  verifyAndGrantAccess env w prf sigs h u = Ok (w', evs) ->
  passesAllButFreshness env2 w prf2 sigs h u ->
  passesAllButFreshness env2 w' prf2 sigs h u.
Proof.
  intros E Hp. destruct (grant_effect _ _ _ _ _ _ _ _ E) as (Hpac & Hreg & _).
  apply (passes_transfer env2 w w' prf2 sigs h u Hp).
  - unfold requirementsOf. rewrite Hpac. reflexivity.
  - destruct (registerNullifier_keeps_validity _ _ _ _ _ _ _ Hreg) as [Hc Hr].
    unfold CredentialRegistry.isCredentialValid. rewrite Hc, Hr.
    apply Hp.
  - right. eapply registerNullifier_binds, Hreg.
Qed.

Lemma registerNullifier_again (env env' : Env)
    (st st' : CredentialRegistry.State) (n h : bytes32) (u : address)
    (evs : list Event) :
  CredentialRegistry.registerNullifier env st n h u = Ok (st', evs) ->
  CredentialRegistry.registerNullifier env' st' n h u = Ok (st', evs).
Proof.
  intros Hreg.
  assert (Hv : CredentialRegistry.isCredentialValid st h = true).
  { unfold CredentialRegistry.isCredentialValid. revert Hreg.
    unfold CredentialRegistry.registerNullifier, require, mbind, result_bind.
    destruct (flag _ h); simpl; [| discriminate].
    destruct (flag _ h); simpl; [discriminate | reflexivity]. }
  destruct (Z.eq_dec (word (CredentialRegistry.nullifierOwners st) n) 0)
    as [E0 | E0].
  - rewrite (registerNullifier_fresh env st n h u Hv E0) in Hreg.
    injection Hreg as <- <-.
    set (st1 := CredentialRegistry.mkState _ _ _ _ _ _ _ _).
    assert (Hv1 : CredentialRegistry.isCredentialValid st1 h = true) by exact Hv.
    assert (Ho1 : word (CredentialRegistry.nullifierOwners st1) n = u).
    { subst st1. cbn [CredentialRegistry.nullifierOwners]. rewrite word_insert.
      destruct (decide (n = n)); [reflexivity | contradiction]. }
    destruct (Z.eq_dec u 0) as [-> | Hu].
    + rewrite (registerNullifier_fresh env' st1 n h 0 Hv1 Ho1).
      subst st1. cbn [CredentialRegistry.credentials
        CredentialRegistry.credentialIssuers CredentialRegistry.revokedCredentials
        CredentialRegistry.trustedIssuers CredentialRegistry.issuerNames
        CredentialRegistry.nullifierOwners CredentialRegistry.userToCredential
        CredentialRegistry.roles].
      now rewrite insert_insert_eq.
    + apply registerNullifier_same_owner; assumption.
  - destruct (registerNullifier_success_owner _ _ _ _ _ _ _ Hreg) as [H0 | Hu];
      [contradiction |].
    assert (Hne : u <> 0) by congruence.
    rewrite (registerNullifier_same_owner env st n h u Hv Hu Hne) in Hreg.
    injection Hreg as <- <-.
    now apply registerNullifier_same_owner.
Qed.

(** X20. A successful call can be replayed: the same call on the world
    it produced succeeds again, with the same events, and leaves that world
    unchanged. *)
Theorem replay_is_noop (env : Env) (w w' : World) (prf : ZKProof)
    (sigs : list uint256) (h : bytes32) (u : address) (evs : list Event) :
  verifyAndGrantAccess env w prf sigs h u = Ok (w', evs) ->
  verifyAndGrantAccess env w' prf sigs h u = Ok (w', evs).
Proof.
  intros E.
  pose proof (success_passes _ _ _ _ _ _ _ _ _ _ E) as [Hpass _].
  pose proof (success_inv _ _ _ _ _ _ _ _ _ _ E) as (_ & Hhi & Hh & Hlo).
  pose proof (passes_after_grant _ env _ _ _ prf _ _ _ _ E Hpass) as Hpass'.
  destruct (passes_succeeds env w' prf sigs h u Hpass' Hh (conj Hlo Hhi))
    as (w'' & evs'' & E').
  rewrite E'. f_equal.
  destruct (grant_effect _ _ _ _ _ _ _ _ E) as (Hpac & Hreg & ->).
  destruct (grant_effect _ _ _ _ _ _ _ _ E') as (Hpac' & Hreg' & ->).
  rewrite (registerNullifier_again _ (mkEnv this (block_timestamp env))
             _ _ _ _ _ _ Hreg) in Hreg'.
  injection Hreg' as Hregeq.
  f_equal. destruct w'' as [p'' r''], w' as [p' r']; simpl in *.
  subst r''. f_equal. rewrite Hpac', Hpac; simpl.
  now rewrite !insert_insert_eq.
Qed.

(** X21. After a grant the protocol can revoke the access: the flag is
    cleared while the recorded credential and the registry stay, a second
    revocation reverts, and the same proof then grants access again. *)
Theorem revoke_then_regrant (env : Env) (w w1 : World) (prf : ZKProof)
    (sigs : list uint256) (h : bytes32) (u : address) (evs : list Event) :
  verifyAndGrantAccess env w prf sigs h u = Ok (w1, evs) ->
  exists w2 : World,
    revokeAccess env w1 u
      = Ok (w2, [AccessRevoked u (msg_sender env) (block_timestamp env)]) /\
    checkAccess env w2 u = false /\
    word (userCredentials (pac w2)) (msg_sender env, u) = h /\
    registry w2 = registry w1 /\
    revokeAccess env w2 u = Revert UserDoesNotHaveAccess /\
    exists (w3 : World) (evs3 : list Event),
      verifyAndGrantAccess env w2 prf sigs h u = Ok (w3, evs3) /\
      checkAccess env w3 u = true.
Proof.
  intros E.
  pose proof (success_passes _ _ _ _ _ _ _ _ _ _ E) as [Hpass _].
  pose proof (success_inv _ _ _ _ _ _ _ _ _ _ E) as (_ & Hhi & Hh & Hlo).
  pose proof (passes_after_grant _ env _ _ _ prf _ _ _ _ E Hpass) as Hpass1.
  destruct (grant_effect _ _ _ _ _ _ _ _ E) as (Hpac & _ & _).
  assert (Hflag : flag (hasAccess (pac w1)) (msg_sender env, u) = true).
  { rewrite Hpac; simpl. rewrite flag_insert.
    destruct (decide _); [reflexivity | contradiction]. }
  unfold revokeAccess at 1. rewrite Hflag.
  rewrite bind_require_true by reflexivity.
  eexists. split; [reflexivity |].
  set (w2 := mkWorld _ (registry w1)).
  assert (Hoff : flag (hasAccess (pac w2)) (msg_sender env, u) = false).
  { subst w2; simpl. rewrite flag_insert.
    destruct (decide _); [reflexivity | contradiction]. }
  split; [exact Hoff |]. split.
  { subst w2; simpl. rewrite Hpac; simpl. rewrite word_insert.
    destruct (decide _); [reflexivity | contradiction]. }
  split; [reflexivity |]. split.
  { unfold revokeAccess. rewrite Hoff. reflexivity. }
  assert (Hpass2 : passesAllButFreshness env w2 prf sigs h u).
  { apply (passes_transfer env w1 w2 prf sigs h u Hpass1);
      [reflexivity | apply Hpass1 | apply Hpass1]. }
  destruct (passes_succeeds env w2 prf sigs h u Hpass2 Hh (conj Hlo Hhi))
    as (w3 & evs3 & E3).
  exists w3, evs3. split; [exact E3 |].
  destruct (grant_effect _ _ _ _ _ _ _ _ E3) as (Hpac3 & _ & _).
  unfold checkAccess. rewrite Hpac3; simpl. rewrite flag_insert.
  destruct (decide _); [reflexivity | contradiction].
Qed.

(** X22. A nullifier is reusable across protocols: after one protocol's
    grant, a second protocol whose checks the same signals pass is granted
    too, and both grants hold. *)
Theorem nullifier_reusable_across_protocols (env1 env2 : Env) (w w1 : World)
    (prf1 prf2 : ZKProof) (sigs : list uint256) (h : bytes32) (u : address)
    (evs : list Event) :
  verifyAndGrantAccess env1 w prf1 sigs h u = Ok (w1, evs) ->
  passesAllButFreshness env2 w prf2 sigs h u ->
  hours1 <= block_timestamp env2 ->
  block_timestamp env2 - hours1 <= signal sigs 14 <= block_timestamp env2 ->
  exists (w2 : World) (evs2 : list Event),
    verifyAndGrantAccess env2 w1 prf2 sigs h u = Ok (w2, evs2) /\
    flag (hasAccess (pac w2)) (msg_sender env1, u) = true /\
    flag (hasAccess (pac w2)) (msg_sender env2, u) = true /\
    registry w2 = registry w1.
Proof.
  intros E Hpass2 Hh [Hlo Hhi].
  pose proof (passes_after_grant _ env2 _ _ _ prf2 _ _ _ _ E Hpass2) as Hp.
  destruct (passes_succeeds env2 w1 prf2 sigs h u Hp Hh (conj Hlo Hhi))
    as (w2 & evs2 & E2).
  exists w2, evs2. split; [exact E2 |].
  destruct (grant_effect _ _ _ _ _ _ _ _ E) as (Hpac & Hreg & _).
  destruct (grant_effect _ _ _ _ _ _ _ _ E2) as (Hpac2 & Hreg2 & _).
  rewrite Hpac2, Hpac; simpl. rewrite !flag_insert.
  split; [| split].
  - destruct (decide _); [reflexivity |].
    destruct (decide _); [reflexivity | contradiction].
  - destruct (decide _); [reflexivity | contradiction].
  - rewrite (registerNullifier_again _ (mkEnv this (block_timestamp env2))
               _ _ _ _ _ _ Hreg) in Hreg2.
    now injection Hreg2.
Qed.

Lemma land_60 (h : Z) : Z.land h (2 ^ 60 - 1) = h mod 2 ^ 60.
Proof. change (2 ^ 60 - 1) with (Z.ones 60). apply Z.land_ones. lia. Qed.

(** X23. Only the low 60 bits of the credential hash are compared with
    the proof: a successful call has signal 12 equal to the hash modulo 2^60,
    and the same proof succeeds with any other valid credential that has the
    same low 60 bits, which is then the one recorded. *)
Theorem truncated_hash_is_all_that_is_checked (env : Env) (w w1 : World)
    (prf : ZKProof) (sigs : list uint256) (h1 h2 : bytes32) (u : address)
    (evs : list Event) :
  h1 mod 2 ^ 60 = h2 mod 2 ^ 60 ->
  CredentialRegistry.isCredentialValid (registry w) h2 = true ->
  verifyAndGrantAccess env w prf sigs h1 u = Ok (w1, evs) ->
  signal sigs 12 = h1 mod 2 ^ 60 /\
  exists (w2 : World) (evs2 : list Event),
    verifyAndGrantAccess env w prf sigs h2 u = Ok (w2, evs2) /\
    word (userCredentials (pac w2)) (msg_sender env, u) = h2.
Proof.
  intros Hmod Hv2 E.
  pose proof (success_passes _ _ _ _ _ _ _ _ _ _ E) as [Hpass _].
  pose proof (success_inv _ _ _ _ _ _ _ _ _ _ E) as (_ & Hhi & Hh & Hlo).
  assert (H12 : signal sigs 12 = h1 mod 2 ^ 60).
  { rewrite <- land_60. apply Hpass. }
  split; [exact H12 |].
  assert (Hpass2 : passesAllButFreshness env w prf sigs h2 u).
  { unfold ProtocolAccessControl.passesAllButFreshness,
      ProtocolAccessControl.passesUpToAge in *.
    rewrite land_60 in *. rewrite <- Hmod. tauto. }
  destruct (passes_succeeds env w prf sigs h2 u Hpass2 Hh (conj Hlo Hhi))
    as (w2 & evs2 & E2).
  exists w2, evs2. split; [exact E2 |].
  destruct (grant_effect _ _ _ _ _ _ _ _ E2) as (Hpac2 & _ & _).
  rewrite Hpac2; simpl. rewrite word_insert.
  destruct (decide _); [reflexivity | contradiction].
Qed.

(** X25. [verifyAndGrantAccess] succeeds exactly when the twelve checks
    pass: the eleven before the freshness window together with an unbound or
    own nullifier, a block time of at least one hour, and a proof date within
    the last hour. *)
Theorem grant_succeeds_iff (env : Env) (w : World) (prf : ZKProof)
    (sigs : list uint256) (h : bytes32) (u : address) :
  (exists (w' : World) (evs : list Event),
     verifyAndGrantAccess env w prf sigs h u = Ok (w', evs)) <->
  passesAllButFreshness env w prf sigs h u /\
  hours1 <= block_timestamp env /\
  block_timestamp env - hours1 <= signal sigs 14 <= block_timestamp env.
Proof.
  split.
  - intros (w' & evs & E).
    pose proof (success_passes _ _ _ _ _ _ _ _ _ _ E) as [Hpass _].
    pose proof (success_inv _ _ _ _ _ _ _ _ _ _ E) as (_ & Hhi & Hh & Hlo).
    auto.
  - intros (Hpass & Hh & Hw). now apply passes_succeeds.
Qed.

End Deployed.

(** X24. [setRequirements] accepts at most ten jurisdictions and
    overwrites the caller's policy only: other protocols' policies, every
    grant, including the caller's own under the old policy, and the registry
    are unchanged; with more than ten jurisdictions it reverts. *)
Theorem setRequirements_keeps_grants (env : Env) (w : World) (minAge : uint256)
    (allowed : list uint256) (accredited : bool) :
  ((length allowed <= 10)%nat ->
   exists w' : World,
     setRequirements env w minAge allowed accredited
       = Ok (w', [RequirementsSet (msg_sender env) minAge allowed accredited]) /\
     requirementsOf w' (msg_sender env)
       = mkRequirements minAge allowed accredited true /\
     (forall p : address, p <> msg_sender env ->
        requirementsOf w' p = requirementsOf w p) /\
     hasAccess (pac w') = hasAccess (pac w) /\
     userCredentials (pac w') = userCredentials (pac w) /\
     registry w' = registry w) /\
  ((10 < length allowed)%nat ->
   setRequirements env w minAge allowed accredited = Revert TooManyJurisdictions).
Proof.
  unfold setRequirements. split; intros Hlen.
  - rewrite bind_require_true by (apply Nat.leb_le; exact Hlen).
    eexists. split; [reflexivity |]. unfold requirementsOf; simpl.
    split; [now rewrite lookup_insert_eq |].
    split; [| auto]. intros p Hp. now rewrite lookup_insert_ne.
  - rewrite bind_require_false by (apply Nat.leb_gt; exact Hlen). reflexivity.
Qed.

Import Fixture Scenarios.

Ltac prove_passes :=
  split; [repeat split; vm_compute; reflexivity |];
  split; [let i := fresh "i" in let Hi := fresh "Hi" in let Hc := fresh "Hc" in
          intros i Hi;
          do 10 (destruct i as [| i];
                 [split; intros Hc;
                  first [reflexivity | exfalso; vm_compute in Hc; lia] |]);
          lia |];
  do 5 (split; [vm_compute; reflexivity |]);
  split; [intros _; reflexivity |];
  split; [intros _; reflexivity |];
  first [left; vm_compute; reflexivity | right; vm_compute; reflexivity].

Lemma first_grant :
  call world1 day1 grantSignals user = Ok (worldGranted, grantEvents).
Proof. vm_compute; reflexivity. Defined.

Lemma binding_survives_every_transaction_witness :
  word (CredentialRegistry.nullifierOwners (ProtocolAccessControl.registry worldGranted)) 77 = user /\
  user <> 0 /\
  word (CredentialRegistry.nullifierOwners
          (ProtocolAccessControl.registry (ledgerRun worldGranted othersCalls))) 77 = user.
Proof.
  assert (H : word (CredentialRegistry.nullifierOwners (ProtocolAccessControl.registry worldGranted)) 77
              = user) by (vm_compute; reflexivity).
  assert (Hu : user <> 0) by discriminate.
  split; [exact H |]. split; [exact Hu |].
  exact (binding_survives_every_transaction mockVerifier accessControl
           managerRole worldGranted 77 user othersCalls H Hu).
Defined.

Lemma revoked_credential_never_grants_witness :
  flag (CredentialRegistry.revokedCredentials (ProtocolAccessControl.registry worldRevoked))
       credentialHash = true /\
  (call (ledgerRun worldRevoked history) day1 grantSignals user
     = Revert RequirementsNotSet \/
   call (ledgerRun worldRevoked history) day1 grantSignals user
     = Revert InvalidOrRevokedCredential) /\
  ledgerStep (ledgerRun worldRevoked history)
    (mkEnv protocol day1,
     VerifyAndGrantAccess mockProof grantSignals credentialHash user)
    = ledgerRun worldRevoked history.
Proof.
  assert (H : flag (CredentialRegistry.revokedCredentials (ProtocolAccessControl.registry worldRevoked))
                   credentialHash = true) by (vm_compute; reflexivity).
  split; [exact H |].
  exact (revoked_credential_never_grants mockVerifier accessControl managerRole
           worldRevoked credentialHash history (mkEnv protocol day1) mockProof
           grantSignals user H).
Defined.

Lemma access_is_protocol_scoped_witness :
  Forall (fun tx => msg_sender (fst tx) <> protocol) othersCalls /\
  flag (hasAccess (pac worldGranted)) (protocol, user) = true /\
  requirementsOf (ledgerRun worldGranted othersCalls) protocol
    = requirementsOf worldGranted protocol /\
  flag (hasAccess (pac (ledgerRun worldGranted othersCalls))) (protocol, user)
    = flag (hasAccess (pac worldGranted)) (protocol, user).
Proof.
  assert (H : Forall (fun tx => msg_sender (fst tx) <> protocol) othersCalls)
    by (repeat constructor; discriminate).
  destruct (access_is_protocol_scoped mockVerifier accessControl managerRole
              worldGranted othersCalls protocol user H) as (H1 & H2 & _).
  split; [exact H |]. split; [vm_compute; reflexivity |].
  split; [exact H1 | exact H2].
Defined.

Lemma policy_stays_set_witness :
  isSet (requirementsOf world1 protocol) = true /\
  isSet (requirementsOf (ledgerRun world1 (othersCalls ++ history)) protocol)
    = true.
Proof.
  assert (H : isSet (requirementsOf world1 protocol) = true)
    by (vm_compute; reflexivity).
  split; [exact H |].
  exact (policy_stays_set mockVerifier accessControl managerRole world1
           (othersCalls ++ history) protocol H).
Defined.

Lemma granted_access_has_credential_witness :
  flag (hasAccess (pac (ledgerRun (deployed Fixture.registry) history))) (protocol, user)
    = true /\
  flag (CredentialRegistry.credentials
          (ProtocolAccessControl.registry (ledgerRun (deployed Fixture.registry) history)))
       (word (userCredentials (pac (ledgerRun (deployed Fixture.registry) history)))
             (protocol, user)) = true.
Proof.
  assert (H : flag (hasAccess (pac (ledgerRun (deployed Fixture.registry) history)))
                   (protocol, user) = true) by (vm_compute; reflexivity).
  split; [exact H |].
  exact (granted_access_has_credential mockVerifier accessControl managerRole
           Fixture.registry history protocol user H).
Defined.

Lemma replay_is_noop_witness :
  call world1 day1 grantSignals user = Ok (worldGranted, grantEvents) /\
  call worldGranted day1 grantSignals user = Ok (worldGranted, grantEvents).
Proof.
  split; [exact first_grant |].
  exact (replay_is_noop mockVerifier accessControl _ _ _ _ _ _ _ _ first_grant).
Defined.

Lemma revoke_then_regrant_witness :
  call world1 day1 grantSignals user = Ok (worldGranted, grantEvents) /\
  exists w2 : World,
    revokeAccess (mkEnv protocol day1) worldGranted user
      = Ok (w2, [AccessRevoked user protocol day1]) /\
    checkAccess (mkEnv protocol day1) w2 user = false /\
    revokeAccess (mkEnv protocol day1) w2 user = Revert UserDoesNotHaveAccess /\
    exists (w3 : World) (evs3 : list Event),
      call w2 day1 grantSignals user = Ok (w3, evs3) /\
      checkAccess (mkEnv protocol day1) w3 user = true.
Proof.
  split; [exact first_grant |].
  destruct (revoke_then_regrant mockVerifier accessControl _ _ _ _ _ _ _ _
              first_grant) as (w2 & H1 & H2 & _ & _ & H5 & H6).
  exists w2. split; [exact H1 |]. split; [exact H2 |]. split; [exact H5 |].
  exact H6.
Defined.

Lemma second_policy_passes :
  passesAllButFreshness mockVerifier (mkEnv protocol2 day1) worldTwoPolicies
    mockProof grantSignals credentialHash user.
Proof. prove_passes. Defined.

Lemma nullifier_reusable_across_protocols_witness :
  hours1 <= day1 /\
  exists (w2 : World) (evs2 : list Event),
    verifyAndGrantAccess mockVerifier accessControl (mkEnv protocol2 day1)
      (commit worldTwoPolicies (call worldTwoPolicies day1 grantSignals user))
      mockProof grantSignals credentialHash user = Ok (w2, evs2) /\
    flag (hasAccess (pac w2)) (protocol, user) = true /\
    flag (hasAccess (pac w2)) (protocol2, user) = true.
Proof.
  assert (Hh : hours1 <= day1) by discriminate.
  assert (E : call worldTwoPolicies day1 grantSignals user
              = Ok (commit worldTwoPolicies
                      (call worldTwoPolicies day1 grantSignals user),
                    grantEvents)) by (vm_compute; reflexivity).
  assert (Hw : block_timestamp (mkEnv protocol2 day1) - hours1
               <= signal grantSignals 14 <= block_timestamp (mkEnv protocol2 day1))
    by (split; discriminate).
  destruct (nullifier_reusable_across_protocols mockVerifier accessControl
              (mkEnv protocol day1) (mkEnv protocol2 day1) _ _ mockProof
              mockProof _ _ _ _ E second_policy_passes Hh Hw)
    as (w2 & evs2 & H1 & H2 & H3 & _).
  split; [exact Hh |]. exists w2, evs2. auto.
Defined.

Lemma truncated_hash_is_all_that_is_checked_witness :
  credentialHash <> credentialHash2 /\
  credentialHash mod 2 ^ 60 = credentialHash2 mod 2 ^ 60 /\
  CredentialRegistry.isCredentialValid (ProtocolAccessControl.registry worldTwoCredentials)
    credentialHash2 = true /\
  exists (w2 : World) (evs2 : list Event),
    verifyAndGrantAccess mockVerifier accessControl (mkEnv protocol day1)
      worldTwoCredentials mockProof grantSignals credentialHash2 user
      = Ok (w2, evs2) /\
    word (userCredentials (pac w2)) (protocol, user) = credentialHash2.
Proof.
  assert (Hm : credentialHash mod 2 ^ 60 = credentialHash2 mod 2 ^ 60)
    by (vm_compute; reflexivity).
  assert (Hv : CredentialRegistry.isCredentialValid (ProtocolAccessControl.registry worldTwoCredentials)
                 credentialHash2 = true) by (vm_compute; reflexivity).
  assert (E : call worldTwoCredentials day1 grantSignals user
              = Ok (commit worldTwoCredentials
                      (call worldTwoCredentials day1 grantSignals user),
                    grantEvents)) by (vm_compute; reflexivity).
  split; [discriminate |]. split; [exact Hm |]. split; [exact Hv |].
  exact (proj2 (truncated_hash_is_all_that_is_checked mockVerifier accessControl
                  _ _ _ _ _ _ _ _ _ Hm Hv E)).
Defined.

Lemma grant_succeeds_iff_witness :
  passesAllButFreshness mockVerifier (mkEnv protocol day1) world1 mockProof
    grantSignals credentialHash user /\
  exists (w' : World) (evs : list Event),
    call world1 day1 grantSignals user = Ok (w', evs).
Proof.
  assert (Hp : passesAllButFreshness mockVerifier (mkEnv protocol day1) world1
                 mockProof grantSignals credentialHash user)
    by exact (fixture_passes day1).
  split; [exact Hp |].
  apply (proj2 (grant_succeeds_iff mockVerifier accessControl
                  (mkEnv protocol day1) world1 mockProof grantSignals
                  credentialHash user)).
  split; [exact Hp |]. split; [discriminate |]. split; discriminate.
Defined.

Lemma setRequirements_keeps_grants_witness :
  (exists w' : World,
     setRequirements (mkEnv protocol day1) worldGranted 21 [840; 124] true
       = Ok (w', [RequirementsSet protocol 21 [840; 124] true]) /\
     requirementsOf w' protocol = mkRequirements 21 [840; 124] true true /\
     hasAccess (pac w') = hasAccess (pac worldGranted)) /\
  setRequirements (mkEnv protocol day1) worldGranted 21 (repeat 840 11) true
    = Revert TooManyJurisdictions.
Proof.
  destruct (setRequirements_keeps_grants (mkEnv protocol day1) worldGranted 21
              [840; 124] true) as [Hok _].
  destruct (setRequirements_keeps_grants (mkEnv protocol day1) worldGranted 21
              (repeat 840 11) true) as [_ Hbad].
  split.
  - destruct (Hok ltac:(simpl; lia)) as (w' & H1 & H2 & _ & H4 & _).
    exists w'. auto.
  - apply Hbad. simpl; lia.
Defined.

End LedgerProps.

(** ** The circuit's outputs in front of the contract *)

Module EndToEnd.
Import Sol ProtocolAccessControl Circuit Signals CircuitProps CircuitExtra
  AccessControlProps.

Lemma signals_layout (m : Z) (al : list Z) (r hp ra cd : Z) (sl : list Z)
    (v n pf : Z) :
  length al = 10%nat -> length sl = 10%nat ->
  signal ([m] ++ al ++ [r; hp; ra; cd] ++ sl ++ [v; n; pf]) 0 = m /\
  signal ([m] ++ al ++ [r; hp; ra; cd] ++ sl ++ [v; n; pf]) 25 = v /\
  signal ([m] ++ al ++ [r; hp; ra; cd] ++ sl ++ [v; n; pf]) 27 = pf.
Proof.
  intros Ha Hs.
  do 10 (destruct al as [| ? al]; [discriminate Ha |]).
  destruct al; [| discriminate Ha].
  do 10 (destruct sl as [| ? sl]; [discriminate Hs |]).
  destruct sl; [| discriminate Hs].
  repeat split.
Qed.

Ltac bit_clear H :=
  match type of H with
  | Z.testbit ?x ?k = true =>
      let X := fresh "X" in
      assert (X : Z.testbit x k = false) by (vm_compute; reflexivity);
      rewrite X in H; discriminate H
  end.

(** X26. When the signals are the circuit's own outputs, a successful
    call means the holder is strictly older than the policy minimum and at
    least 21, the document is unexpired, the jurisdiction allowed and not
    sanctioned, the hashes agree and the accreditation check passes. *)
Theorem honest_grant_implies_predicates
    (verifyProof : ZKProof -> list uint256 -> bool) (this : address)
    (env : Env) (w w' : World) (prf : ZKProof) (c : ZKKYC) (h : bytes32)
    (u : address) (evs : list Event) :
  length (AllowedJurisdictions c) = 10%nat ->
  length (SanctionedCountries c) = 10%nat ->
  verifyAndGrantAccess verifyProof this env w prf (publicSignalsOf (Define c)) h u
    = Ok (w', evs) ->
  minAge (requirementsOf w (msg_sender env)) = MinAge c /\
  MinAge c mod q < ActualAge c mod q /\
  21 <= ActualAge c mod q /\
  CurrentDate c mod q < ExpiryDate c mod q /\
  member (ActualJurisdiction c) (AllowedJurisdictions c) /\
  ~ member (ActualJurisdiction c) (SanctionedCountries c) /\
  CredentialHash c mod q = CredentialHashPublic c mod q /\
  (RequireAccredited c mod q = 0 \/
   ActualAccredited c mod q = RequireAccredited c mod q).
Proof.
  intros Hal Hsl E.
  apply success_passes in E as [Hpass _].
  destruct Hpass as ((_ & _ & _ & Hvalid & Hage) & _ & _ & _ & _ & Hb2 & Hb3 & _).
  unfold publicSignalsOf in Hvalid, Hage, Hb2, Hb3.
  destruct (signals_layout (MinAge (Define c)) (AllowedJurisdictions (Define c))
              (RequireAccredited (Define c)) (CredentialHashPublic (Define c))
              (RecipientAddress (Define c)) (CurrentDate (Define c))
              (SanctionedCountries (Define c)) (IsValid (Define c))
              (Nullifier (Define c)) (PackedFlags (Define c)) Hal Hsl)
    as (L0 & L25 & L27).
  rewrite L25 in Hvalid. rewrite L0 in Hage. rewrite L27 in Hb2, Hb3.
  clear L0 L25 L27.
  apply IsValid_one_conditions in Hvalid as (Hj & Hs & Hh & Hacc & Hcmp).
  assert (Hgoal : MinAge c mod q < ActualAge c mod q /\
                  21 <= ActualAge c mod q /\
                  CurrentDate c mod q < ExpiryDate c mod q).
  { assert (Es : isNotSanctioned c = 1).
    { unfold isNotSanctioned.
      destruct (checkSanctions_cases (ActualJurisdiction c) (SanctionedCountries c))
        as [[_ Es] | [Hm _]]; [exact Es | contradiction]. }
    simpl PackedFlags in Hb2, Hb3. unfold expiryValid in Hb2, Hb3.
    rewrite Es in Hb2, Hb3.
    destruct Hcmp as [[Ha He] | [Ha He]].
    - rewrite (Cmp_gt _ _ He) in Hb2, Hb3.
      destruct (age_wires c) as [(Hb & E18 & E21) | [(Hb & E18 & E21)
        | [(Hb & E18 & E21) | [(Hb & E18 & E21) | (Hb & E18 & E21)]]]];
        rewrite E18, E21 in Hb2;
        first [ bit_clear Hb2
              | split; [exact Ha | split; [clear - Hb; lia | exact He]] ].
    - rewrite (Cmp_lt _ _ He) in Hb2, Hb3.
      destruct (age_wires c) as [(Hb & E18 & E21) | [(Hb & E18 & E21)
        | [(Hb & E18 & E21) | [(Hb & E18 & E21) | (Hb & E18 & E21)]]]];
        rewrite E18, E21 in Hb3; bit_clear Hb3. }
  destruct Hgoal as (G1 & G2 & G3).
  cbn [MinAge Define] in Hage.
  split; [symmetry; exact Hage |].
  repeat (split; [assumption |]). exact Hacc.
Qed.

Import Fixture Scenarios.

Lemma honest_grant_implies_predicates_witness :
  length (AllowedJurisdictions e2eCircuit) = 10%nat /\
  length (SanctionedCountries e2eCircuit) = 10%nat /\
  verifyAndGrantAccess mockVerifier accessControl (mkEnv protocol e2eNow)
    e2eWorld mockProof (publicSignalsOf (Define e2eCircuit)) credentialHash user
    = Ok (commit e2eWorld
            (verifyAndGrantAccess mockVerifier accessControl
               (mkEnv protocol e2eNow) e2eWorld mockProof
               (publicSignalsOf (Define e2eCircuit)) credentialHash user),
          [NullifierRegistered 1357924680 credentialHash user;
           AccessGranted user protocol credentialHash e2eNow]) /\
  MinAge e2eCircuit mod q < ActualAge e2eCircuit mod q /\
  21 <= ActualAge e2eCircuit mod q.
Proof.
  assert (E : verifyAndGrantAccess mockVerifier accessControl
                (mkEnv protocol e2eNow) e2eWorld mockProof
                (publicSignalsOf (Define e2eCircuit)) credentialHash user
              = Ok (commit e2eWorld
                      (verifyAndGrantAccess mockVerifier accessControl
                         (mkEnv protocol e2eNow) e2eWorld mockProof
                         (publicSignalsOf (Define e2eCircuit)) credentialHash user),
                    [NullifierRegistered 1357924680 credentialHash user;
                     AccessGranted user protocol credentialHash e2eNow]))
    by (vm_compute; reflexivity).
  destruct (honest_grant_implies_predicates mockVerifier accessControl _ _ _ _
              e2eCircuit _ _ _ eq_refl eq_refl E) as (_ & H1 & H2 & _).
  split; [reflexivity |]. split; [reflexivity |]. split; [exact E |].
  split; [exact H1 | exact H2].
Defined.

End EndToEnd.
